(** * Driftwood: the Lua scripting host of a Discord bot

    A shallow embedding of three Go units of the repository

    - [internal/lua/bindings/register_app.go]: the application-command
      binding (registration, deferred registration, dispatch, option
      flattening);
    - the Lua manager (package [lua]): the [on_ready] registrar, the
      interaction dispatcher and the ready handler;
    - [utils.ParseComponents]: marshalling of component tables.

    Go code that mutates a receiver is written in state-passing style over
    an explicit state; a Go panic (which is how gopher-lua raises argument
    and runtime errors) is a [Fail] outcome that leaves the mutations made
    so far in place.  Everything observable (log records, calls against
    the platform, calls into script functions) is appended to a trace. *)

From stdpp Require Import base strings gmap list pretty.
From Stdlib Require Import ZArith Lia.

Set Warnings "-register-all".

(** ** Script values (gopher-lua [LValue]) *)

(** A script function is opaque to the host: it is known by an identity. *)
Definition FnId := nat.

(** [LNumber] is a float64 in gopher-lua; the model keeps the integral
    numbers.  A table is the sequence of its key/value pairs in the order
    in which [ForEach] visits them. *)
Inductive LValue : Type :=
  | LNil
  | LBool (b : bool)
  | LNumber (n : Z)
  | LString (s : string)
  | LFunction (f : FnId)
  | LUserData (u : nat)
  | LTableV (t : LTable)
with LTable : Type :=
  | mkTable (entries : list (LValue * LValue)).

Inductive LValueType : Type :=
  LTNil | LTBool | LTNumber | LTString | LTFunction | LTUserData | LTTable.

Definition LValue_Type (v : LValue) : LValueType :=
  match v with
  | LNil => LTNil
  | LBool _ => LTBool
  | LNumber _ => LTNumber
  | LString _ => LTString
  | LFunction _ => LTFunction
  | LUserData _ => LTUserData
  | LTableV _ => LTTable
  end.

Global Instance LValueType_eq_dec : EqDecision LValueType.
Proof. solve_decision. Defined.

Definition is_nil (v : LValue) : bool :=
  match v with LNil => true | _ => false end.

(** [lua.LVAsBool]: everything but [nil] and [false] is true. *)
Definition LVAsBool (v : LValue) : bool :=
  match v with
  | LNil => false
  | LBool b => b
  | _ => true
  end.

Definition entries (t : LTable) : list (LValue * LValue) :=
  match t with mkTable es => es end.

(** The number of constructors of a value, a measure for induction over
    tables nested in tables. *)
Fixpoint LValue_size (v : LValue) : nat :=
  match v with
  | LTableV t => S (LTable_size t)
  | _ => 1
  end
with LTable_size (t : LTable) : nat :=
  match t with
  | mkTable es =>
      S ((fix sum (es : list (LValue * LValue)) : nat :=
            match es with
            | [] => 0
            | (k, v) :: es' => LValue_size k + LValue_size v + sum es'
            end) es)
  end.

Definition key_is (k : string) (key : LValue) : bool :=
  match key with
  | LString k' => String.eqb k' k
  | _ => false
  end.

Fixpoint rawGetString (es : list (LValue * LValue)) (k : string) : LValue :=
  match es with
  | [] => LNil
  | (key, v) :: es' => if key_is k key then v else rawGetString es' k
  end.

(** [LTable.RawGetString]: [nil] when the key is absent. *)
Definition RawGetString (t : LTable) (k : string) : LValue :=
  rawGetString (entries t) k.

Fixpoint rawSetString (es : list (LValue * LValue)) (k : string) (v : LValue)
  : list (LValue * LValue) :=
  match es with
  | [] => [(LString k, v)]
  | (key, v') :: es' =>
      if key_is k key then (key, v) :: es' else (key, v') :: rawSetString es' k v
  end.

(** [LTable.RawSetString] with a value that is not [nil]: an existing
    key keeps its place, a new key goes last. *)
Definition RawSetString (t : LTable) (k : string) (v : LValue) : LTable :=
  mkTable (rawSetString (entries t) k v).

(** [ForEach] hands every value to the callback; none of the callbacks of
    this development looks at the key. *)
Definition values (t : LTable) : list LValue := (entries t).*2.

(** Continuation form of
    [if sub := t.RawGetString(k); sub.Type() == LTTable { f sub } else { dflt }],
    written as one traversal so that [f] is applied to a component of [t];
    [withTableField_unfold] below states the equation with [RawGetString]. *)
Definition withTableField {A : Type} (t : LTable) (k : string) (dflt : A)
    (f : LTable → A) : A :=
  (fix find (es : list (LValue * LValue)) : A :=
     match es with
     | [] => dflt
     | (key, v) :: es' =>
         if key_is k key
         then match v with LTableV sub => f sub | _ => dflt end
         else find es'
     end) (entries t).

(** ** Values of the host (Go, discordgo) *)

(** A Go [interface{}] holding a decoded JSON scalar. *)
Inductive GoValue : Type :=
  | GNil
  | GBool (b : bool)
  | GFloat (n : Z)
  | GString (s : string)
  | GOther (tag : nat).

(** [discordgo.ApplicationCommandOptionType] is a [uint8]. *)
Definition ApplicationCommandOptionSubCommand : Z := 1.
Definition ApplicationCommandOptionSubCommandGroup : Z := 2.
Definition ApplicationCommandOptionString : Z := 3.
Definition ApplicationCommandOptionInteger : Z := 4.
Definition ApplicationCommandOptionBoolean : Z := 5.
Definition ApplicationCommandOptionUser : Z := 6.
Definition ApplicationCommandOptionChannel : Z := 7.
Definition ApplicationCommandOptionRole : Z := 8.
Definition ApplicationCommandOptionMentionable : Z := 9.
Definition ApplicationCommandOptionNumber : Z := 10.
Definition ApplicationCommandOptionAttachment : Z := 11.

(** The conversion [uint8(f)] of a float64 that holds an integer: the value
    itself in the range of the type, and its low eight bits outside of it
    (where Go leaves the result to the implementation). *)
Definition uint8 (n : Z) : Z := n mod 256.

Inductive ApplicationCommandOption : Type :=
  mkOption {
    opt_Name : string;
    opt_Description : string;
    opt_Type : Z;
    opt_Required : bool;
    opt_Options : list ApplicationCommandOption
  }.

Record ApplicationCommand : Type :=
  mkCommand {
    cmd_Name : string;
    cmd_Description : string;
    cmd_Options : list ApplicationCommandOption
  }.

(** A slice of data options; Go tells a nil slice from an empty one. *)
Inductive DataOption : Type :=
  | mkDataOption (Name : string) (Type_ : Z) (Value : GoValue)
      (Options : DataOptions)
with DataOptions : Type :=
  | nilSlice
  | slice (elems : list DataOption).

Definition do_Name (o : DataOption) : string :=
  match o with mkDataOption n _ _ _ => n end.
Definition do_Type (o : DataOption) : Z :=
  match o with mkDataOption _ t _ _ => t end.
Definition do_Value (o : DataOption) : GoValue :=
  match o with mkDataOption _ _ v _ => v end.
Definition do_Options (o : DataOption) : DataOptions :=
  match o with mkDataOption _ _ _ os => os end.

(** Induction over slices of data options that reaches the slices nested
    in the options. *)
Section DataOptions_nested_ind.
Variable P : DataOptions → Prop.
Hypothesis P_nil : P nilSlice.
Hypothesis P_slice :
  ∀ opts, Forall (λ o, P (do_Options o)) opts → P (slice opts).

Fixpoint DataOptions_nested_ind (s : DataOptions) : P s :=
  match s with
  | nilSlice => P_nil
  | slice opts =>
      P_slice opts
        ((fix go (l : list DataOption) : Forall (λ o, P (do_Options o)) l :=
            match l with
            | [] => List.Forall_nil _
            | o :: l' =>
                List.Forall_cons _ o l'
                  (match o return P (do_Options o) with
                   | mkDataOption _ _ _ os => DataOptions_nested_ind os
                   end)
                  (go l')
            end) opts)
  end.
End DataOptions_nested_ind.

Definition elements (s : DataOptions) : list DataOption :=
  match s with nilSlice => [] | slice l => l end.

Definition is_nilSlice (s : DataOptions) : bool :=
  match s with nilSlice => true | slice _ => false end.

Inductive InteractionType : Type :=
  | InteractionPing
  | InteractionApplicationCommand
  | InteractionMessageComponent
  | InteractionApplicationCommandAutocomplete
  | InteractionModalSubmit.

Global Instance InteractionType_eq_dec : EqDecision InteractionType.
Proof. solve_decision. Defined.

Record ApplicationCommandInteractionData : Type :=
  mkData {
    data_Name : string;
    data_Options : DataOptions
  }.

Record InteractionCreate : Type :=
  mkInteraction {
    i_ID : string;
    i_Type : InteractionType;
    i_Data : ApplicationCommandInteractionData
  }.

(** [discordgo.ButtonStyle]. *)
Definition PrimaryButton : Z := 1.

Record SelectMenuOption : Type :=
  mkSelectMenuOption { smo_Label : string; smo_Value : string }.

Inductive MessageComponent : Type :=
  | Button (Label CustomID : string) (Style : Z) (Disabled : bool)
  | SelectMenu (Placeholder CustomID : string)
      (Options : list SelectMenuOption) (Disabled : bool)
  | ActionsRow (Components : list MessageComponent).

(** The platform session: the identity the bot is logged in as and the
    answer of the platform to [ApplicationCommandCreate appID guildID cmd]
    ([Some err] when the call fails). *)
Record DiscordSession : Type :=
  mkSession {
    s_UserID : string;
    s_ApplicationCommandCreate :
      string → string → ApplicationCommand → option string
  }.

(** ** Observable behaviour *)

Inductive LogLevel : Type := Debug | Info | Warn | Error.

Global Instance LogLevel_eq_dec : EqDecision LogLevel.
Proof. solve_decision. Defined.

Inductive Event : Type :=
  | EvLog (level : LogLevel) (msg : string)
  | EvCreate (appID guildID : string) (cmd : ApplicationCommand)
  | EvCall (fn : FnId) (args : list LValue).

(** The interpreter state the host touches (the script globals) and the
    trace of what happened so far, oldest event first. *)
Record World : Type :=
  mkWorld {
    globals : gmap string LValue;
    trace : list Event
  }.

Definition is_call (e : Event) : bool :=
  match e with EvCall _ _ => true | _ => false end.

Definition is_create (e : Event) : bool :=
  match e with EvCreate _ _ _ => true | _ => false end.

Definition calls (w : World) : list Event := filter is_call (trace w).
Definition creates (w : World) : list Event := filter is_create (trace w).

(** ** What the surrounding runtime supplies

    Formatting of values whose text is an address, [fmt]'s [%v] of a JSON
    scalar, the behaviour of script functions and the helper
    [utils.PrepareInteractionTable] are not part of the three units; they
    are taken as given. *)
Class Runtime : Type :=
  {
    (** [fmt.Sprintf("%p", fn)] of a function, a table, a userdata *)
    addr_of_function : FnId → string;
    addr_of_table : LTable → string;
    addr_of_userdata : nat → string;
    (** [fmt.Sprintf("%v", v)] *)
    fmt_v : GoValue → string;
    (** running a script function on arguments over the globals:
        [Some err] when the function raises *)
    script_call :
      FnId → list LValue → gmap string LValue →
      option string * gmap string LValue;
    (** [utils.PrepareInteractionTable(L, session, interaction)] *)
    PrepareInteractionTable : option DiscordSession → InteractionCreate → LTable
  }.

(** [LValue.String()]. *)
Definition LValue_String `{Runtime} (v : LValue) : string :=
  match v with
  | LNil => "nil"
  | LBool b => if b then "true" else "false"
  | LNumber n => pretty n
  | LString s => s
  | LFunction f => "function: " +:+ addr_of_function f
  | LUserData u => "userdata: " +:+ addr_of_userdata u
  | LTableV t => "table: " +:+ addr_of_table t
  end.

(** ** Outcomes and the state-and-failure monad *)

Inductive Failure : Type :=
  | ArgError (pos : nat) (msg : string)   (* L.ArgError, L.Check... *)
  | RaiseError (msg : string)             (* L.RaiseError *)
  | Panic (msg : string).                 (* any other Go panic *)

Inductive Outcome (A : Type) : Type :=
  | Ret (a : A)
  | Fail (e : Failure).
Arguments Ret {A} a.
Arguments Fail {A} e.

Definition M (S A : Type) : Type := S → Outcome A * S.

Definition ret {S A} (a : A) : M S A := λ s, (Ret a, s).
Definition fail {S A} (e : Failure) : M S A := λ s, (Fail e, s).
Definition bind {S A B} (k : A → M S B) (m : M S A) : M S B :=
  λ s, match m s with
       | (Ret a, s') => k a s'
       | (Fail e, s') => (Fail e, s')
       end.
Definition get {S} : M S S := λ s, (Ret s, s).
Definition modify {S} (f : S → S) : M S unit := λ s, (Ret tt, f s).

(** The notations [x ← m; k] and [m;; k] of stdpp stand for [bind]. *)
Global Instance M_ret {S} : MRet (M S) := λ A, ret.
Global Instance M_bind {S} : MBind (M S) := λ A B, bind.

(** [if c { L.ArgError(pos, msg) }] *)
Definition check {S} (c : bool) (e : Failure) : M S unit :=
  if c then ret tt else fail e.

Definition emit (e : Event) (w : World) : World :=
  mkWorld (globals w) (trace w ++ [e]).

Definition slog (level : LogLevel) (msg : string) (w : World) : World :=
  emit (EvLog level msg) w.

(** [L.SetGlobal(name, v)] with [v] not [nil]. *)
Definition SetGlobal (name : string) (v : LValue) (w : World) : World :=
  mkWorld (<[name := v]> (globals w)) (trace w).

(** [L.GetGlobal(name)]. *)
Definition GetGlobal (name : string) (w : World) : LValue :=
  default LNil (globals w !! name).

(** [L.CallByParam(lua.P{Fn: fn, NRet: 0, Protect: true}, args...)]: the
    protected call returns the error instead of raising it. *)
Definition CallByParam `{Runtime} (fn : LValue) (args : list LValue)
    (w : World) : option string * World :=
  match fn with
  | LFunction f =>
      let w1 := emit (EvCall f args) w in
      let '(err, g) := script_call f args (globals w1) in
      (err, mkWorld g (trace w1))
  | _ => (Some "attempt to call a non-function object", w)
  end.

(** Modelled from the spec: the Runner ([utils.GetLuaRunner().Do]) is not
    among the three units.  Section 4.1: the task is executed synchronously,
    a panic raised while it executes is caught at the task boundary and
    logged, and the caller continues. *)
Definition Do (task : M World unit) (w : World) : World :=
  match task w with
  | (Ret _, w') => w'
  | (Fail _, w') => slog Error "Lua task panicked" w'
  end.

Global Instance Outcome_ret : MRet Outcome := λ A, Ret.
Global Instance Outcome_bind : MBind Outcome := λ A B k m,
  match m with
  | Ret a => k a
  | Fail e => Fail e
  end.

Global Instance Outcome_fmap : FMap Outcome := λ A B f m,
  match m with
  | Ret a => Ret (f a)
  | Fail e => Fail e
  end.

(** A computation that cannot fail, and one that only fails or returns. *)
Definition lift {S A} (f : S → A * S) : M S A :=
  λ s, let '(a, s') := f s in (Ret a, s').
Definition liftO {S A} (o : Outcome A) : M S A := λ s, (o, s).

Definition call `{Runtime} (fn : LValue) (args : list LValue)
  : M World (option string) :=
  lift (CallByParam fn args).

(** A [for ... range] loop whose body may panic. *)
Fixpoint forRange {S A} (body : A → M S unit) (l : list A) : M S unit :=
  match l with
  | [] => ret tt
  | a :: l' => body a;; forRange body l'
  end.

(** ** Package utils: component marshalling *)
Module Utils.
Section WithRuntime.
Context `{Runtime}.

(** The inner [options.ForEach] of the select branch. *)
Definition parseSelectOption (selectOptions : list SelectMenuOption)
    (value : LValue) : list SelectMenuOption :=
  match value with
  | LTableV optionTable =>
      let optLabel := LValue_String (RawGetString optionTable "label") in
      let optValue := LValue_String (RawGetString optionTable "value") in
      selectOptions ++ [mkSelectMenuOption optLabel optValue]
  | _ => selectOptions
  end.

Definition parseDisabled (componentTable : LTable) : bool :=
  let disabledRaw := RawGetString componentTable "disabled" in
  if decide (LValue_Type disabledRaw = LTBool) then LVAsBool disabledRaw
  else false.

(** The body of the outer [table.ForEach]. *)
Definition parseComponent (components : list MessageComponent)
    (value : LValue) : list MessageComponent :=
  match value with
  | LTableV componentTable =>
      let componentType := LValue_String (RawGetString componentTable "type") in
      if String.eqb componentType "button" then
        let label := LValue_String (RawGetString componentTable "label") in
        let customID := LValue_String (RawGetString componentTable "custom_id") in
        let disabled := parseDisabled componentTable in
        components ++ [Button label customID PrimaryButton disabled]
      else if String.eqb componentType "select" then
        let placeholder :=
          LValue_String (RawGetString componentTable "placeholder") in
        let customID := LValue_String (RawGetString componentTable "custom_id") in
        let disabled := parseDisabled componentTable in
        match RawGetString componentTable "options" with
        | LTableV options =>
            let selectOptions := foldl parseSelectOption [] (values options) in
            components ++ [SelectMenu placeholder customID selectOptions disabled]
        | _ => components
        end
      else components
  | _ => components
  end.

(** The pair [(components, err)] that [ParseComponents] returns; the nil
    slice is the empty list. *)
Definition ParseComponents (table : LTable)
  : list MessageComponent * option string :=
  let components := foldl parseComponent [] (values table) in
  if decide (0 < length components)%nat
  then ([ActionsRow components], None)
  else ([], Some "no valid components found").

(** An entry that the traversal turns into a component. *)
Definition valid_entry (value : LValue) : bool :=
  match value with
  | LTableV componentTable =>
      let componentType := LValue_String (RawGetString componentTable "type") in
      String.eqb componentType "button"
      || (String.eqb componentType "select"
          && bool_decide
               (LValue_Type (RawGetString componentTable "options") = LTTable))
  | _ => false
  end.
End WithRuntime.
End Utils.

(** ** Package bindings: the application-command binding *)
Module Bindings.

(** A closure appended to [waitRegister] captures the command built by the
    registration and the [name] value; its code is [callDeferred]. *)
Record DeferredRegistration : Type :=
  mkDeferred {
    dr_appCmd : ApplicationCommand;
    dr_name : LValue
  }.

Record ApplicationCommandBinding : Type :=
  mkBinding {
    Session : option DiscordSession;
    GuildID : string;
    Commands : gmap string string;
    waitRegister : list DeferredRegistration
  }.

Definition NewApplicationCommandBinding (guildID : string)
  : ApplicationCommandBinding :=
  mkBinding None guildID ∅ [].

Definition Name (b : ApplicationCommandBinding) : string :=
  "register_application_command".

(** The receiver together with the interpreter and the trace. *)
Definition BState : Type := ApplicationCommandBinding * World.

Definition onWorld (f : World → World) : M BState unit :=
  modify (λ s, (s.1, f s.2)).
Definition onBinding
    (f : ApplicationCommandBinding → ApplicationCommandBinding)
  : M BState unit :=
  modify (λ s, (f s.1, s.2)).

Definition setSessionField (session : DiscordSession)
    (b : ApplicationCommandBinding) : ApplicationCommandBinding :=
  mkBinding (Some session) (GuildID b) (Commands b) (waitRegister b).
Definition setCommand (key globalName : string)
    (b : ApplicationCommandBinding) : ApplicationCommandBinding :=
  mkBinding (Session b) (GuildID b) (<[key := globalName]> (Commands b))
    (waitRegister b).
Definition appendWaitRegister (d : DeferredRegistration)
    (b : ApplicationCommandBinding) : ApplicationCommandBinding :=
  mkBinding (Session b) (GuildID b) (Commands b) (waitRegister b ++ [d]).

Definition number_of (v : LValue) : Z :=
  match v with LNumber n => n | _ => 0 end.

(** [session.ApplicationCommandCreate(session.State.User.ID, b.GuildID, appCmd)]
    followed by the test of its error. *)
Definition createCommand (session : DiscordSession) (name : string)
    (appCmd : ApplicationCommand) : M BState unit :=
  s ← get;
  onWorld (emit (EvCreate (s_UserID session) (GuildID s.1) appCmd));;
  match s_ApplicationCommandCreate session (s_UserID session) (GuildID s.1)
          appCmd with
  | Some err =>
      fail (RaiseError ("failed to register command '" +:+ name
                        +:+ "' with Discord: " +:+ err))
  | None => ret tt
  end.

Section WithRuntime.
Context `{Runtime}.

Definition callDeferred (session : DiscordSession) (d : DeferredRegistration)
  : M BState unit :=
  createCommand session (LValue_String (dr_name d)) (dr_appCmd d).

Definition SetSession (session : DiscordSession) : M BState unit :=
  onWorld (slog Info "Setting session for ApplicationCommandBinding");;
  onBinding (setSessionField session);;
  s ← get;
  forRange (callDeferred session) (waitRegister s.1).

(** The callback that [parseOptions] hands to [options.ForEach], run on
    one value: it returns the slice [commandOptions] after the call.
    [parseOptions] is the function itself, for the recursive call on
    nested options. *)
Definition optionCallback
    (parseOptions : string → LTable → M BState (list ApplicationCommandOption))
    (parentName : string) (commandOptions : list ApplicationCommandOption)
    (value : LValue) : M BState (list ApplicationCommandOption) :=
  match value with
  | LTableV optTable =>
      let name := RawGetString optTable "name" in
      check (bool_decide (LValue_Type name = LTString))
        (ArgError 1 "'name' in options must be a string");;
      let description := RawGetString optTable "description" in
      check (bool_decide (LValue_Type description = LTString))
        (ArgError 1 "'description' in options must be a string");;
      let typeField := RawGetString optTable "type" in
      check (bool_decide (LValue_Type typeField = LTNumber))
        (ArgError 1 "'type' in options must be a number");;
      let option_Name := LValue_String name in
      let option_Description := LValue_String description in
      let option_Type := uint8 (number_of typeField) in
      let option_Required := LVAsBool (RawGetString optTable "required") in
      option_Options ←
        (if decide (option_Type = ApplicationCommandOptionSubCommand)
         then
           let handler := RawGetString optTable "handler" in
           check (bool_decide (LValue_Type handler = LTFunction))
             (ArgError 1 "Subcommand '%s' must have a 'handler' function");;
           let handlerName :=
             "handler_" +:+ parentName +:+ "_" +:+ option_Name in
           onWorld (SetGlobal handlerName handler);;
           onBinding (setCommand (parentName +:+ "_" +:+ option_Name)
                        handlerName);;
           withTableField optTable "options" (ret [])
             (λ subOptions,
                parseOptions (parentName +:+ "_" +:+ option_Name) subOptions)
         else ret []);
      onWorld (slog Debug "Parsed command option");;
      ret (commandOptions ++
             [mkOption option_Name option_Description option_Type
                option_Required option_Options])
  | _ => ret commandOptions
  end.

(** [options.ForEach] with that callback, over the entries in order. *)
Definition forEachOption
    (parseOptions : string → LTable → M BState (list ApplicationCommandOption))
    (parentName : string)
  : list (LValue * LValue) → list ApplicationCommandOption →
    M BState (list ApplicationCommandOption) :=
  fix forEach (es : list (LValue * LValue))
      (commandOptions : list ApplicationCommandOption) {struct es}
    : M BState (list ApplicationCommandOption) :=
    match es with
    | [] => ret commandOptions
    | (_, value) :: es' =>
        commandOptions' ←
          optionCallback parseOptions parentName commandOptions value;
        forEach es' commandOptions'
    end.

Fixpoint parseOptions (parentName : string) (options : LTable)
    {struct options} : M BState (list ApplicationCommandOption) :=
  forEachOption (λ parentName subOptions, parseOptions parentName subOptions)
    parentName (entries options) [].

(** [L.CheckTable(1)]. *)
Definition CheckTable {S} (args : list LValue) : M S LTable :=
  match args with
  | LTableV t :: _ => ret t
  | _ => fail (ArgError 1 "table expected")
  end.

(** The function that [Register] installs in the script module. *)
Definition Register (args : list LValue) : M BState unit :=
  command ← CheckTable args;
  let name := RawGetString command "name" in
  check (bool_decide (LValue_Type name = LTString))
    (ArgError 1 "'name' must be a string");;
  let description := RawGetString command "description" in
  check (bool_decide (LValue_Type description = LTString))
    (ArgError 1 "'description' must be a string");;
  let handler := RawGetString command "handler" in
  check (is_nil handler || bool_decide (LValue_Type handler = LTFunction))
    (ArgError 1 "'handler' must be a function if provided");;
  let options := RawGetString command "options" in
  check (is_nil options || bool_decide (LValue_Type options = LTTable))
    (ArgError 1 "'options' must be a table if provided");;
  let globalName := "handler_" +:+ LValue_String name in
  (if is_nil handler then ret tt
   else
     onWorld (SetGlobal globalName handler);;
     onBinding (setCommand (LValue_String name) globalName));;
  commandOptions ←
    match options with
    | LTableV optionsTable => parseOptions (LValue_String name) optionsTable
    | _ => ret []
    end;
  let appCmd :=
    mkCommand (LValue_String name) (LValue_String description) commandOptions in
  s ← get;
  match Session s.1 with
  | None => onBinding (appendWaitRegister (mkDeferred appCmd name))
  | Some session =>
      createCommand session (LValue_String name) appCmd;;
      onWorld (slog Info "Registered command successfully")
  end.

Definition CanHandleInteraction (b : ApplicationCommandBinding)
    (interaction : InteractionCreate) : bool :=
  bool_decide (i_Type interaction = InteractionApplicationCommand).

(** [interaction.ApplicationCommandData()] of discordgo panics on an
    interaction of another type. *)
Definition ApplicationCommandData (interaction : InteractionCreate)
  : Outcome ApplicationCommandInteractionData :=
  if decide (i_Type interaction = InteractionApplicationCommand)
  then Ret (i_Data interaction)
  else Fail (Panic "ApplicationCommandData called on interaction of another type").

(** The loop of [HandleInteraction] that extends [commandName]. *)
Fixpoint subcommandSuffix (options : list DataOption) : string :=
  match options with
  | [] => ""
  | opt :: options' =>
      if decide (do_Type opt = ApplicationCommandOptionSubCommand)
      then "_" +:+ do_Name opt
      else subcommandSuffix options'
  end.

Definition commandKey (data : ApplicationCommandInteractionData) : string :=
  data_Name data +:+ subcommandSuffix (elements (data_Options data)).

(** The typed accessors of a data option (discordgo): each panics when the
    option has another type or the value another dynamic type. *)
Definition IntValue (o : DataOption) : Outcome Z :=
  if decide (do_Type o = ApplicationCommandOptionInteger)
  then match do_Value o with
       | GFloat n => Ret n
       | _ => Fail (Panic "interface conversion: interface {} is not float64")
       end
  else Fail (Panic "IntValue called on data option of another type").
Definition BoolValue (o : DataOption) : Outcome bool :=
  if decide (do_Type o = ApplicationCommandOptionBoolean)
  then match do_Value o with
       | GBool b => Ret b
       | _ => Fail (Panic "interface conversion: interface {} is not bool")
       end
  else Fail (Panic "BoolValue called on data option of another type").
Definition StringValue (o : DataOption) : Outcome string :=
  if decide (do_Type o = ApplicationCommandOptionString)
  then match do_Value o with
       | GString s => Ret s
       | _ => Fail (Panic "interface conversion: interface {} is not string")
       end
  else Fail (Panic "StringValue called on data option of another type").
Definition FloatValue (o : DataOption) : Outcome Z :=
  if decide (do_Type o = ApplicationCommandOptionNumber)
  then match do_Value o with
       | GFloat n => Ret n
       | _ => Fail (Panic "interface conversion: interface {} is not float64")
       end
  else Fail (Panic "FloatValue called on data option of another type").

(** The [switch opt.Type] of [buildOptionsTable]. *)
Definition optionValue (opt : DataOption) : Outcome LValue :=
  if decide (do_Type opt = ApplicationCommandOptionInteger)
  then LNumber <$> IntValue opt
  else if decide (do_Type opt = ApplicationCommandOptionBoolean)
  then LBool <$> BoolValue opt
  else if decide (do_Type opt = ApplicationCommandOptionString)
  then LString <$> StringValue opt
  else if decide (do_Type opt = ApplicationCommandOptionNumber)
  then LNumber <$> FloatValue opt
  else Ret (LString (fmt_v (do_Value opt))).

(** [buildOptionsTable]: [T = None] is the nil table pointer; ranging over
    the nil slice runs no iteration. *)
Fixpoint buildOptionsTable (T : option LTable) (options : DataOptions)
    {struct options} : Outcome LTable :=
  let T := default (mkTable []) T in
  match options with
  | nilSlice => Ret T
  | slice opts =>
      (fix loop (opts : list DataOption) (T : LTable) {struct opts}
         : Outcome LTable :=
         match opts with
         | [] => Ret T
         | opt :: opts' =>
             if decide (do_Type opt = ApplicationCommandOptionSubCommand)
             then
               match opt with
               | mkDataOption _ _ _ (slice _ as sub) =>
                   buildOptionsTable (Some T) sub
               | mkDataOption _ _ _ nilSlice => loop opts' T
               end
             else
               v ← optionValue opt;
               loop opts' (RawSetString T (do_Name opt) v)
         end) opts T
  end.

Definition prepareInteractionTable (b : ApplicationCommandBinding)
    (interaction : InteractionCreate) : Outcome LTable :=
  let interactionTable := PrepareInteractionTable (Session b) interaction in
  data ← ApplicationCommandData interaction;
  T ← buildOptionsTable None (data_Options data);
  Ret (RawSetString interactionTable "options" (LTableV T)).

(** The task that [HandleInteraction] hands to the Runner. *)
Definition handlerTask (b : ApplicationCommandBinding)
    (interaction : InteractionCreate) (globalName : string) : M World unit :=
  modify (slog Debug "Executing Lua handler");;
  w ← get;
  let fn := GetGlobal globalName w in
  if is_nil fn then modify (slog Error "Lua handler not implemented")
  else
    interactionTable ← liftO (prepareInteractionTable b interaction);
    err ← call fn [LTableV interactionTable];
    match err with
    | Some _ => modify (slog Error "Error executing Lua command handler")
    | None => modify (slog Info "Command handled successfully")
    end.

(** [HandleInteraction]: the result is the returned [error]
    ([None] is nil). *)
Definition HandleInteraction (b : ApplicationCommandBinding)
    (interaction : InteractionCreate) : M World (option string) :=
  modify (slog Info "Handling command interaction");;
  data ← liftO (ApplicationCommandData interaction);
  let commandName := commandKey data in
  match Commands b !! commandName with
  | None =>
      modify (slog Warn "Command not registered");;
      ret (Some ("command '" +:+ commandName +:+ "' not registered"))
  | Some globalName =>
      modify (Do (handlerTask b interaction globalName));;
      ret None
  end.
End WithRuntime.
End Bindings.

(** ** Package lua: the manager *)
Module Manager.

(** A binding of another kind.  Their sources are outside the three units;
    what the manager uses of them is the [LuaBinding] interface. *)
Record OtherBinding : Type :=
  mkOther {
    ob_Name : string;
    ob_SetSession : DiscordSession → M World unit;
    ob_CanHandleInteraction : InteractionCreate → bool;
    ob_HandleInteraction : InteractionCreate → M World (option string)
  }.

(** The values stored behind the interface [bindings.LuaBinding]. *)
Inductive LuaBinding : Type :=
  | AppCommand (b : Bindings.ApplicationCommandBinding)
  | Other (o : OtherBinding).

(** [Bindings] is a Go map from group name to bindings: the list holds
    its groups in the order in which a [range] over it visits them, an
    order Go does not fix. *)
Record LuaManager : Type :=
  mkManager {
    Bindings : list (string * list LuaBinding);
    OnReadyCbs : list string
  }.

Definition MState : Type := LuaManager * World.

Definition onWorld (f : World → World) : M MState unit :=
  modify (λ s, (s.1, f s.2)).

(** [L.CheckFunction(1)]. *)
Definition CheckFunction {S} (args : list LValue) : M S LValue :=
  match args with
  | LFunction f :: _ => ret (LFunction f)
  | _ => fail (ArgError 1 "function expected")
  end.

(** The function that [addReady] installs as [on_ready]; [now] is
    [time.Now().Unix()] at the call. *)
Definition on_ready (now : Z) (args : list LValue) : M MState unit :=
  handler ← CheckFunction args;
  let globalName := "on_ready_handler_" +:+ pretty now in
  onWorld (SetGlobal globalName handler);;
  modify (λ s, (mkManager (Bindings s.1) (OnReadyCbs s.1 ++ [globalName]), s.2)).

Section WithRuntime.
Context `{Runtime}.

Definition LuaBinding_Name (lb : LuaBinding) : string :=
  match lb with
  | AppCommand b => Bindings.Name b
  | Other o => ob_Name o
  end.

Definition LuaBinding_CanHandleInteraction (lb : LuaBinding)
    (i : InteractionCreate) : bool :=
  match lb with
  | AppCommand b => Bindings.CanHandleInteraction b i
  | Other o => ob_CanHandleInteraction o i
  end.

Definition LuaBinding_HandleInteraction (lb : LuaBinding)
    (i : InteractionCreate) : M World (option string) :=
  match lb with
  | AppCommand b => Bindings.HandleInteraction b i
  | Other o => ob_HandleInteraction o i
  end.

(** [SetSession] through the interface: the binding after the call, also
    when the call panics. *)
Definition LuaBinding_SetSession (lb : LuaBinding) (session : DiscordSession)
    (w : World) : Outcome unit * (LuaBinding * World) :=
  match lb with
  | AppCommand b =>
      let '(r, (b', w')) := Bindings.SetSession session (b, w) in
      (r, (AppCommand b', w'))
  | Other o =>
      let '(r, w') := ob_SetSession o session w in (r, (Other o, w'))
  end.

(** The inner loop of [HandleCommand] over one group: [true] when a
    binding handled the interaction and [HandleCommand] returns. *)
Fixpoint handleGroup (group : list LuaBinding) (i : InteractionCreate)
  : M World bool :=
  match group with
  | [] => ret false
  | lb :: group' =>
      if LuaBinding_CanHandleInteraction lb i then
        modify (slog Debug "Binding matched for interaction");;
        err ← LuaBinding_HandleInteraction lb i;
        match err with
        | None => ret true
        | Some _ =>
            modify (slog Warn "Error handling interaction with binding");;
            handleGroup group' i
        end
      else handleGroup group' i
  end.

Fixpoint handleGroups (groups : list (string * list LuaBinding))
    (i : InteractionCreate) : M World bool :=
  match groups with
  | [] => ret false
  | (_, group) :: groups' =>
      handled ← handleGroup group i;
      if handled : bool then ret true else handleGroups groups' i
  end.

Definition HandleCommand (m : LuaManager) (i : InteractionCreate)
  : M World unit :=
  handled ← handleGroups (Bindings m) i;
  if handled : bool then ret tt
  else modify (slog Warn "Command binding not found").

Fixpoint setSessionGroup (session : DiscordSession) (group : list LuaBinding)
    (w : World) : Outcome unit * (list LuaBinding * World) :=
  match group with
  | [] => (Ret tt, ([], w))
  | lb :: group' =>
      match LuaBinding_SetSession lb session w with
      | (Ret _, (lb', w')) =>
          let '(r, (group'', w'')) := setSessionGroup session group' w' in
          (r, (lb' :: group'', w''))
      | (Fail e, (lb', w')) => (Fail e, (lb' :: group', w'))
      end
  end.

Fixpoint setSessionGroups (session : DiscordSession)
    (groups : list (string * list LuaBinding)) (w : World)
  : Outcome unit * (list (string * list LuaBinding) * World) :=
  match groups with
  | [] => (Ret tt, ([], w))
  | (name, group) :: groups' =>
      match setSessionGroup session group w with
      | (Ret _, (group', w')) =>
          let '(r, (groups'', w'')) := setSessionGroups session groups' w' in
          (r, ((name, group') :: groups'', w''))
      | (Fail e, (group', w')) => (Fail e, ((name, group') :: groups', w'))
      end
  end.

Definition setSession (session : DiscordSession) : M MState unit :=
  λ s,
    let '(r, (groups, w)) := setSessionGroups session (Bindings s.1) s.2 in
    (r, (mkManager groups (OnReadyCbs s.1), w)).

(** The task that [ReadyHandler] hands to the Runner for one callback. *)
Definition readyTask (cb : string) : M World unit :=
  w ← get;
  let fn := GetGlobal cb w in
  if is_nil fn then modify (slog Error "Lua on_ready handler not found")
  else
    err ← call fn [];
    match err with
    | Some _ => modify (slog Error "Error executing Lua on_ready handler")
    | None => ret tt
    end.

Definition ReadyHandler (s : DiscordSession) : M MState unit :=
  onWorld (slog Info "Handling ready event");;
  setSession s;;
  st ← get;
  forRange (λ cb, onWorld (Do (readyTask cb))) (OnReadyCbs st.1).
End WithRuntime.
End Manager.

(** ** The statements of the specification that the code refines *)

(** The dispatch key in the words of the specification: the command name,
    extended by the name of the first option when that option is a
    subcommand. *)
Definition commandKey_first_option (data : ApplicationCommandInteractionData)
  : string :=
  match elements (data_Options data) with
  | opt :: _ =>
      if decide (do_Type opt = ApplicationCommandOptionSubCommand)
      then data_Name data +:+ "_" +:+ do_Name opt
      else data_Name data
  | [] => data_Name data
  end.

(** An option at which [buildOptionsTable] leaves the level it is at. *)
Definition descends (opt : DataOption) : bool :=
  bool_decide (do_Type opt = ApplicationCommandOptionSubCommand)
  && negb (is_nilSlice (do_Options opt)).

(** ** Vocabulary of the statements about registration *)

(** Parsing touches the command map, the globals and the log; it leaves the
    session, the guild, the pending registrations and the calls made so far
    as they are, and fails with nothing but an argument error. *)
Definition frame (s s' : Bindings.BState) : Prop :=
  Bindings.Session s'.1 = Bindings.Session s.1
  ∧ Bindings.GuildID s'.1 = Bindings.GuildID s.1
  ∧ Bindings.waitRegister s'.1 = Bindings.waitRegister s.1
  ∧ creates s'.2 = creates s.2
  ∧ calls s'.2 = calls s.2.

Definition framed {A : Type} (m : M Bindings.BState A) : Prop :=
  ∀ s, frame s (m s).2
       ∧ ∀ e, (m s).1 = Fail e → ∃ msg, e = ArgError 1 msg.

Section RegisterParts.
Context `{Runtime}.

(** The fields of a command descriptor as [Register] reads them. *)
Definition name_of (command : LTable) : LValue := RawGetString command "name".
Definition description_of (command : LTable) : LValue :=
  RawGetString command "description".
Definition handler_of (command : LTable) : LValue :=
  RawGetString command "handler".
Definition options_of (command : LTable) : LValue :=
  RawGetString command "options".

(** The state after the top-level handler of a descriptor was stored. *)
Definition storeHandler (command : LTable) (s : Bindings.BState)
  : Bindings.BState :=
  if is_nil (handler_of command) then s
  else (Bindings.setCommand (LValue_String (name_of command))
          ("handler_" +:+ LValue_String (name_of command)) s.1,
        SetGlobal ("handler_" +:+ LValue_String (name_of command))
          (handler_of command) s.2).

Definition parseCommandOptions (command : LTable)
  : M Bindings.BState (list ApplicationCommandOption) :=
  match options_of command with
  | LTableV optionsTable =>
      Bindings.parseOptions (LValue_String (name_of command)) optionsTable
  | _ => mret []
  end.

Definition appCmd_of (command : LTable)
    (commandOptions : list ApplicationCommandOption) : ApplicationCommand :=
  mkCommand (LValue_String (name_of command))
    (LValue_String (description_of command)) commandOptions.
End RegisterParts.

(** A descriptor that one of the four top-level checks of [Register]
    rejects. *)
Definition rejected (command : LTable) : Prop :=
  LValue_Type (RawGetString command "name") ≠ LTString
  ∨ LValue_Type (RawGetString command "description") ≠ LTString
  ∨ (RawGetString command "handler" ≠ LNil
     ∧ LValue_Type (RawGetString command "handler") ≠ LTFunction)
  ∨ (RawGetString command "options" ≠ LNil
     ∧ LValue_Type (RawGetString command "options") ≠ LTTable).


(** The call against the platform that replaying a pending registration
    makes. *)
Definition replayed (session : DiscordSession) (guildID : string)
    (d : Bindings.DeferredRegistration) : Event :=
  EvCreate (s_UserID session) guildID (Bindings.dr_appCmd d).

(** The platform accepts the command of a pending registration. *)
Definition accepted (session : DiscordSession) (guildID : string)
    (d : Bindings.DeferredRegistration) : Prop :=
  s_ApplicationCommandCreate session (s_UserID session) guildID
    (Bindings.dr_appCmd d) = None.

(** The platform refuses the command of a pending registration with the
    error [err]. *)
Definition refused (session : DiscordSession) (guildID : string)
    (d : Bindings.DeferredRegistration) (err : string) : Prop :=
  s_ApplicationCommandCreate session (s_UserID session) guildID
    (Bindings.dr_appCmd d) = Some err.

(** ** Vocabulary of the statements about ready callbacks *)

(** The global under which [on_ready] stores a callback registered at the
    Unix time [now]. *)
Definition ready_name (now : Z) : string := "on_ready_handler_" +:+ pretty now.

(** A script calls [on_ready] once for every pair of a function and the
    time of the call, in the order of the list; a call that raises leaves
    the script, not the host. *)
Definition register_ready (regs : list (FnId * Z)) (s : Manager.MState)
  : Manager.MState :=
  foldl (λ s r, (Manager.on_ready r.2 [LFunction r.1] s).2) s regs.


(** ** Vocabulary of the statements about components *)

(** A component as [ParseComponents] puts it in a row: a button of the
    primary style or a select menu, never a row. *)
Definition row_component (c : MessageComponent) : Prop :=
  match c with
  | Button _ _ style _ => style = PrimaryButton
  | SelectMenu _ _ _ _ => True
  | ActionsRow _ => False
  end.

(** ** Vocabulary of the statements about what a registration writes *)

(** Every run of the computation relates the state before to the state
    after, also when it fails. *)
Definition preserved (R : Bindings.BState → Bindings.BState → Prop)
    {A : Type} (m : M Bindings.BState A) : Prop :=
  ∀ s, R s (m s).2.



(** No command record and no script global is lost. *)
Definition nothing_lost (s s' : Bindings.BState) : Prop :=
  (∀ k, is_Some (Bindings.Commands s.1 !! k) →
        is_Some (Bindings.Commands s'.1 !! k))
  ∧ (∀ g, is_Some (globals s.2 !! g) → is_Some (globals s'.2 !! g)).


(** The globals that are not handler globals are as they were. *)
Definition other_globals_untouched (s s' : Bindings.BState) : Prop :=
  ∀ g, (∀ k, g ≠ "handler_" +:+ k) → globals s'.2 !! g = globals s.2 !! g.

(** ** Vocabulary of the statements about parsed options *)

(** What [parseOptions] reads off an option descriptor, and what it stores
    of it in the option it builds. *)
Definition declared_header `{Runtime} (value : LValue)
  : option (string * string * Z * bool) :=
  match value with
  | LTableV optTable =>
      Some (LValue_String (RawGetString optTable "name"),
            LValue_String (RawGetString optTable "description"),
            uint8 (Bindings.number_of (RawGetString optTable "type")),
            LVAsBool (RawGetString optTable "required"))
  | _ => None
  end.

Definition option_header (o : ApplicationCommandOption)
  : string * string * Z * bool :=
  (opt_Name o, opt_Description o, opt_Type o, opt_Required o).

(** An entry of an options table that is not a subcommand descriptor. *)
Definition plain_option (value : LValue) : Prop :=
  match value with
  | LTableV optTable =>
      uint8 (Bindings.number_of (RawGetString optTable "type"))
      ≠ ApplicationCommandOptionSubCommand
  | _ => True
  end.

(** An option descriptor whose three mandatory fields pass the checks of
    [parseOptions]; an entry that is not a table has none to pass. *)
Definition typed_option (value : LValue) : Prop :=
  match value with
  | LTableV optTable =>
      LValue_Type (RawGetString optTable "name") = LTString
      ∧ LValue_Type (RawGetString optTable "description") = LTString
      ∧ LValue_Type (RawGetString optTable "type") = LTNumber
  | _ => True
  end.

(** The option with the given header and no options of its own. *)
Definition leaf_option (h : string * string * Z * bool)
  : ApplicationCommandOption :=
  mkOption h.1.1.1 h.1.1.2 h.1.2 h.2 [].

(** ** Vocabulary of the statements about the options of an event *)

(** A data option whose value does not have the dynamic type that the
    typed accessor of its option type converts to. *)
Definition mistyped (o : DataOption) : Prop :=
  ((do_Type o = ApplicationCommandOptionInteger
    ∨ do_Type o = ApplicationCommandOptionNumber)
   ∧ ∀ n, do_Value o ≠ GFloat n)
  ∨ (do_Type o = ApplicationCommandOptionBoolean ∧ ∀ b, do_Value o ≠ GBool b)
  ∨ (do_Type o = ApplicationCommandOptionString ∧ ∀ s, do_Value o ≠ GString s).

(** ** Vocabulary of the statements about the manager *)

(** A binding after the session was supplied to it. *)
Definition with_session (session : DiscordSession) (lb : Manager.LuaBinding)
  : Manager.LuaBinding :=
  match lb with
  | Manager.AppCommand b =>
      Manager.AppCommand (Bindings.setSessionField session b)
  | Manager.Other o => Manager.Other o
  end.

(** A binding that takes the session without raising: the platform accepts
    every pending command of a command binding; a binding of another kind
    returns, and neither writes a global nor calls the platform or a
    script. *)
Definition settles (session : DiscordSession) (lb : Manager.LuaBinding)
  : Prop :=
  match lb with
  | Manager.AppCommand b =>
      Forall (accepted session (Bindings.GuildID b)) (Bindings.waitRegister b)
  | Manager.Other o =>
      ∀ w, (Manager.ob_SetSession o session w).1 = Ret tt
           ∧ globals (Manager.ob_SetSession o session w).2 = globals w
           ∧ calls (Manager.ob_SetSession o session w).2 = calls w
           ∧ creates (Manager.ob_SetSession o session w).2 = creates w
  end.

(** The calls against the platform that supplying the session to a binding
    makes. *)
Definition replays (session : DiscordSession) (lb : Manager.LuaBinding)
  : list Event :=
  match lb with
  | Manager.AppCommand b =>
      replayed session (Bindings.GuildID b) <$> Bindings.waitRegister b
  | Manager.Other _ => []
  end.

(** A binding that claims no interaction of another type than an
    application command. *)
Definition commands_only (i : InteractionCreate) (lb : Manager.LuaBinding)
  : Prop :=
  match lb with
  | Manager.AppCommand _ => True
  | Manager.Other o => Manager.ob_CanHandleInteraction o i = false
  end.


(** ** Vocabulary of the statements about what a ready signal logs *)



(** ** Vocabulary of the statements about the events of the platform *)


(** ** Vocabulary of the statements about the handler of a subcommand *)

(** The keys that are not longer than [n], and their handler globals, are
    as they were. *)
Definition short_keys_untouched (n : string) (s s' : Bindings.BState) : Prop :=
  ∀ k, (String.length k ≤ String.length n)%nat →
       Bindings.Commands s'.1 !! k = Bindings.Commands s.1 !! k
       ∧ globals s'.2 !! ("handler_" +:+ k) = globals s.2 !! ("handler_" +:+ k).

(** The parsing of the options of a subcommand descriptor of its own, with
    the key of the subcommand as parent name; nothing to parse when the
    field holds no table. *)
Definition subcommandOptions `{Runtime} (key : string) (optTable : LTable)
  : M Bindings.BState (list ApplicationCommandOption) :=
  match RawGetString optTable "options" with
  | LTableV sub => Bindings.parseOptions key sub
  | _ => mret []
  end.

(** ** A runtime and inputs to run the definitions on *)
Module Sample.

(** The script function 13 raises; every other one returns. *)
Global Instance runtime : Runtime :=
  {|
    addr_of_function := λ f, "0xc000" +:+ pretty f;
    addr_of_table := λ _, "0xc0de";
    addr_of_userdata := λ u, "0xda7a" +:+ pretty u;
    fmt_v := λ v,
      match v with
      | GNil => "<nil>"
      | GBool b => if b then "true" else "false"
      | GFloat n => pretty n
      | GString s => s
      | GOther _ => "{}"
      end;
    script_call := λ f _ g,
      (if Nat.eqb f 13 then Some "boom" else None, g);
    PrepareInteractionTable := λ _ i,
      mkTable [(LString "id", LString (i_ID i))]
  |}.

Definition session : DiscordSession :=
  mkSession "bot" (λ _ _ _, None).

(** A platform that rejects the command named [second]. *)
Definition picky_session : DiscordSession :=
  mkSession "bot"
    (λ _ _ c, if String.eqb (cmd_Name c) "second" then Some "rejected" else None).

Definition w0 : World := mkWorld ∅ [].

(** [{ {type = "button", label = "Go", custom_id = "go_btn"} }] *)
Definition go_button_entry : LTable :=
  mkTable [(LString "type", LString "button");
           (LString "label", LString "Go");
           (LString "custom_id", LString "go_btn")].

Definition go_button : LTable :=
  mkTable [(LNumber 1, LTableV go_button_entry)].

(** [{ "text", {type = "image"}, {type = "select"} }] *)
Definition no_component : LTable :=
  mkTable
    [(LNumber 1, LString "text");
     (LNumber 2, LTableV (mkTable [(LString "type", LString "image")]));
     (LNumber 3, LTableV (mkTable [(LString "type", LString "select")]))].

Definition str_option (name value : string) : DataOption :=
  mkDataOption name ApplicationCommandOptionString (GString value) nilSlice.

Definition sub_option (name : string) (options : DataOptions) : DataOption :=
  mkDataOption name ApplicationCommandOptionSubCommand GNil options.

(** [/foo bar] as the platform sends it. *)
Definition foo_bar : InteractionCreate :=
  mkInteraction "1" InteractionApplicationCommand
    (mkData "foo" (slice [sub_option "bar" (slice [str_option "b" "y"])])).

(** An event whose subcommand comes second in the option list. *)
Definition foo_x_bar : ApplicationCommandInteractionData :=
  mkData "foo"
    (slice [str_option "a" "x"; sub_option "bar" (slice [str_option "b" "y"])]).

(** [{name = "bar", description = "e", type = 1, handler = handler}] *)
Definition bar_option (handler : LValue) : LTable :=
  mkTable [(LString "name", LString "bar");
           (LString "description", LString "e");
           (LString "type", LNumber 1);
           (LString "handler", handler)].

(** [{ bar_option }], the options of the command "foo" *)
Definition foo_options (handler : LValue) : LTable :=
  mkTable [(LNumber 1, LTableV (bar_option handler))].

(** [{name = "foo", description = "d", handler = handler,
      options = { bar_option subhandler }}] *)
Definition foo_command (handler subhandler : LValue) : LTable :=
  mkTable [(LString "name", LString "foo");
           (LString "description", LString "d");
           (LString "handler", handler);
           (LString "options", LTableV (foo_options subhandler))].

(** [{name = name, description = "d"}] *)
Definition command (name : LValue) : LTable :=
  mkTable [(LString "name", name); (LString "description", LString "d")].

Definition fresh : Bindings.BState :=
  (Bindings.NewApplicationCommandBinding "guild", w0).

(** The state after a script registered "foo" with the subcommand "bar",
    whose handler is the function 13. *)
Definition registered : Bindings.BState :=
  (Bindings.Register [LTableV (foo_command LNil (LFunction 13))] fresh).2.

(** The registration call [register_application_command {name = name,
    description = "d"}] on a state. *)
Definition register (name : string) (s : Bindings.BState) : Bindings.BState :=
  (Bindings.Register [LTableV (command (LString name))] s).2.

(** Three commands registered before the session is there. *)
Definition queued : Bindings.BState :=
  register "third" (register "second" (register "first" fresh)).

Definition created (name : string) : Event :=
  EvCreate "bot" "guild" (mkCommand name "d" []).

(** A binding that claims no interaction. *)
Definition silent : Manager.OtherBinding :=
  Manager.mkOther "new_button" (λ _, mret ()) (λ _, false) (λ _, mret None).

Definition manager (b : Bindings.ApplicationCommandBinding)
  : Manager.LuaManager :=
  Manager.mkManager
    [("default", [Manager.AppCommand b; Manager.Other silent])] [].

(** The manager at startup, before any script ran. *)
Definition started : Manager.MState := (manager fresh.1, w0).

(** [{ "text", {type = "button", label = "A", custom_id = "a", style = 4},
      {type = "select", custom_id = "s",
       options = { {label = "x", value = "1"}, "y" }} }] *)
Definition two_components : list (LValue * LValue) :=
  [(LNumber 1, LString "text");
   (LNumber 2,
    LTableV (mkTable [(LString "type", LString "button");
                      (LString "label", LString "A");
                      (LString "custom_id", LString "a");
                      (LString "style", LNumber 4)]));
   (LNumber 3,
    LTableV (mkTable [(LString "type", LString "select");
                      (LString "custom_id", LString "s");
                      (LString "options",
                       LTableV (mkTable
                                  [(LNumber 1,
                                    LTableV (mkTable
                                               [(LString "label", LString "x");
                                                (LString "value", LString "1")]));
                                   (LNumber 2, LString "y")]))]))].

(** [{ {name = "grp", description = "g", type = 2, required = 0,
        handler = f5,
        options = { bar_option f7 }},
       "junk",
       {name = "n", description = "count", type = 4} }] *)
Definition group_options : LTable :=
  mkTable
    [(LNumber 1,
      LTableV (mkTable [(LString "name", LString "grp");
                        (LString "description", LString "g");
                        (LString "type", LNumber 2);
                        (LString "required", LNumber 0);
                        (LString "handler", LFunction 5);
                        (LString "options",
                         LTableV (mkTable
                                    [(LNumber 1,
                                      LTableV (bar_option (LFunction 7)))]))]));
     (LNumber 2, LString "junk");
     (LNumber 3,
      LTableV (mkTable [(LString "name", LString "n");
                        (LString "description", LString "count");
                        (LString "type", LNumber 4)]))].

(** [{name = "ping", description = "d", handler = handler}] *)
Definition ping_command (handler : LValue) : LTable :=
  mkTable [(LString "name", LString "ping");
           (LString "description", LString "d");
           (LString "handler", handler)].

(** [/ping] as the platform sends it. *)
Definition ping : InteractionCreate :=
  mkInteraction "2" InteractionApplicationCommand (mkData "ping" nilSlice).

(** The state [queued] after the session was supplied. *)
Definition bound : Bindings.BState :=
  (Bindings.SetSession session queued).2.

(** [{name = "foo_bar", description = "d", handler = handler}] *)
Definition foo_bar_command (handler : LValue) : LTable :=
  mkTable [(LString "name", LString "foo_bar");
           (LString "description", LString "d");
           (LString "handler", handler)].

(** [/foo_bar] as the platform sends it. *)
Definition foo_bar_flat : InteractionCreate :=
  mkInteraction "3" InteractionApplicationCommand (mkData "foo_bar" nilSlice).

(** [/ping a:x n:three], where the integer option [n] arrives with a
    string. *)
Definition bad_count : InteractionCreate :=
  mkInteraction "4" InteractionApplicationCommand
    (mkData "ping"
       (slice [str_option "a" "x";
               mkDataOption "n" ApplicationCommandOptionInteger
                 (GString "three") nilSlice])).

(** [/ping a:x b:y a:z] *)
Definition a_b_a : list DataOption :=
  [str_option "a" "x"; str_option "b" "y"; str_option "a" "z"].

(** The press of a button, an interaction that is no application
    command. *)
Definition button_press : InteractionCreate :=
  mkInteraction "5" InteractionMessageComponent (mkData "" nilSlice).

(** A binding that claims every interaction and reports an error. *)
Definition loud : Manager.OtherBinding :=
  Manager.mkOther "loud" (λ _, mret ()) (λ _, true)
    (λ _, modify (slog Error "loud");; mret (Some "loud")).

(** [/foo grp bar b:y] as the platform sends it: the subcommand group
    "grp" holds the subcommand "bar", which holds the string option "b". *)
Definition foo_grp_bar : InteractionCreate :=
  mkInteraction "6" InteractionApplicationCommand
    (mkData "foo"
       (slice [mkDataOption "grp" ApplicationCommandOptionSubCommandGroup GNil
                 (slice [sub_option "bar" (slice [str_option "b" "y"])])])).
(** [{name = "bar", description = "e", type = 1, handler = handler,
      options = { {name = "b", description = "text", type = 3} }}] *)
Definition bar_with_option (handler : LValue) : LTable :=
  mkTable [(LString "name", LString "bar");
           (LString "description", LString "e");
           (LString "type", LNumber 1);
           (LString "handler", handler);
           (LString "options",
            LTableV (mkTable
                       [(LNumber 1,
                         LTableV (mkTable
                                    [(LString "name", LString "b");
                                     (LString "description", LString "text");
                                     (LString "type", LNumber 3)]))]))].

(** [{name = "foo", description = "d",
      options = { bar_with_option subhandler }}] *)
Definition foo_bar_b_command (subhandler : LValue) : LTable :=
  mkTable [(LString "name", LString "foo");
           (LString "description", LString "d");
           (LString "options",
            LTableV (mkTable [(LNumber 1,
                               LTableV (bar_with_option subhandler))]))].
End Sample.

(** * Properties *)

(** ** Tables *)

Lemma withTableField_unfold {A : Type} (t : LTable) (k : string) (dflt : A)
    (f : LTable → A) :
  withTableField t k dflt f =
  match RawGetString t k with
  | LTableV sub => f sub
  | _ => dflt
  end.
Proof.
  destruct t as [es]. unfold withTableField, RawGetString. simpl.
  induction es as [|[key v] es IH]; simpl; [done|].
  destruct (key_is k key); [|exact IH].
  by destruct v.
Qed.

Lemma key_is_LString (k k' : string) :
  key_is k (LString k') = bool_decide (k' = k).
Proof.
  simpl. destruct (String.eqb_spec k' k) as [->|Hne].
  - by rewrite bool_decide_eq_true_2.
  - by rewrite bool_decide_eq_false_2.
Qed.

Lemma rawGetString_rawSetString_eq es k v :
  rawGetString (rawSetString es k v) k = v.
Proof.
  induction es as [|[key v'] es IH]; simpl.
  - by rewrite String.eqb_refl.
  - destruct (key_is k key) eqn:Hk; simpl; by rewrite Hk.
Qed.

Lemma rawGetString_rawSetString_ne es k k' v :
  k ≠ k' → rawGetString (rawSetString es k v) k' = rawGetString es k'.
Proof.
  intros Hne. induction es as [|[key v'] es IH]; cbn [rawSetString rawGetString].
  - rewrite key_is_LString, bool_decide_eq_false_2; done.
  - destruct (key_is k key) eqn:Hk; cbn [rawGetString].
    + destruct key; try done. rewrite key_is_LString in Hk.
      apply bool_decide_eq_true_1 in Hk as ->.
      rewrite key_is_LString, bool_decide_eq_false_2; done.
    + by rewrite IH.
Qed.

Lemma RawGetString_RawSetString_eq t k v :
  RawGetString (RawSetString t k v) k = v.
Proof. apply rawGetString_rawSetString_eq. Qed.

Lemma RawGetString_RawSetString_ne t k k' v :
  k ≠ k' → RawGetString (RawSetString t k v) k' = RawGetString t k'.
Proof. apply rawGetString_rawSetString_ne. Qed.

(** ** Component marshalling *)
Section Components.
Context `{Runtime}.

Lemma parseComponent_length components value :
  length (Utils.parseComponent components value) =
  (length components + if Utils.valid_entry value then 1 else 0)%nat.
Proof.
  destruct value as [| | | | | |t]; simpl; try lia.
  destruct (String.eqb _ "button"); simpl.
  { rewrite length_app. simpl. lia. }
  destruct (String.eqb _ "select"); simpl; [|lia].
  destruct (RawGetString t "options"); simpl; try lia.
  rewrite length_app. simpl. lia.
Qed.

Lemma foldl_parseComponent_length vs components :
  length (foldl Utils.parseComponent components vs) =
  (length components + length (filter (λ v, Utils.valid_entry v = true) vs))%nat.
Proof.
  revert components. induction vs as [|v vs IH]; intros components; simpl.
  - lia.
  - rewrite IH, parseComponent_length, filter_cons.
    destruct (Utils.valid_entry v); simpl; lia.
Qed.

(** C8. A table whose only entry is a button with label "Go" and custom
    id "go_btn" marshals to one action row holding one button with that
    label, that id and the primary style; a table none of whose entries
    is a valid component marshals to no component and the error
    "no valid components found". *)
Theorem ParseComponents_button_or_failure (table : LTable) :
  (∀ key button,
      entries table = [(key, LTableV button)] →
      RawGetString button "type" = LString "button" →
      RawGetString button "label" = LString "Go" →
      RawGetString button "custom_id" = LString "go_btn" →
      Utils.ParseComponents table =
      ([ActionsRow [Button "Go" "go_btn" PrimaryButton
                      (Utils.parseDisabled button)]], None))
  ∧ (Forall (λ v, Utils.valid_entry v = false) (values table) →
     Utils.ParseComponents table = ([], Some "no valid components found")).
Proof.
  split.
  - intros key button Hes Hty Hlabel Hid.
    unfold Utils.ParseComponents, values. rewrite Hes. simpl.
    rewrite Hty, Hlabel, Hid. simpl. done.
  - intros Hnone. unfold Utils.ParseComponents.
    pose proof (foldl_parseComponent_length (values table) []) as Hlen.
    assert (filter (λ v, Utils.valid_entry v = true) (values table) = [])
      as Hfil.
    { clear Hlen. induction Hnone as [|v vs Hv _ IH]; [done|].
      rewrite filter_cons, decide_False; [done|]. by rewrite Hv. }
    rewrite Hfil in Hlen. simpl in Hlen.
    rewrite decide_False by lia. done.
Qed.
End Components.

Lemma ParseComponents_button_or_failure_witness :
  Utils.ParseComponents Sample.go_button =
  ([ActionsRow [Button "Go" "go_btn" PrimaryButton false]], None)
  ∧ Utils.ParseComponents Sample.no_component =
    ([], Some "no valid components found").
Proof.
  split.
  - apply (proj1 (ParseComponents_button_or_failure Sample.go_button)
             (LNumber 1) Sample.go_button_entry);
      reflexivity.
  - apply (proj2 (ParseComponents_button_or_failure Sample.no_component)).
    repeat constructor.
Defined.

(** ** The dispatch key *)

Lemma subcommandSuffix_none (options : list DataOption) :
  Forall (λ o, do_Type o ≠ ApplicationCommandOptionSubCommand) options →
  Bindings.subcommandSuffix options = "".
Proof.
  induction 1 as [|o options Ho _ IH]; simpl; [done|].
  by rewrite decide_False.
Qed.

Lemma subcommandSuffix_first (pre post : list DataOption) (o : DataOption) :
  Forall (λ o, do_Type o ≠ ApplicationCommandOptionSubCommand) pre →
  do_Type o = ApplicationCommandOptionSubCommand →
  Bindings.subcommandSuffix (pre ++ o :: post) = "_" +:+ do_Name o.
Proof.
  intros Hpre Ho. induction Hpre as [|p pre Hp _ IH]; simpl.
  - by rewrite decide_True.
  - by rewrite decide_False.
Qed.

Lemma append_empty_r (s : string) : s +:+ "" = s.
Proof.
  induction s as [|c s IH]; [done|].
  change (String c s +:+ "") with (String c (s +:+ "")). by rewrite IH.
Qed.

(** The loop on any list.  The dispatch key is the command name when no
    option of the top-level list is a subcommand; otherwise it is the command
    name, the separator and the name of the first option of the list that is
    a subcommand, wherever in the list that option stands.  The options
    after it and the options nested in it never enter the key. *)
Theorem commandKey_first_subcommand (data : ApplicationCommandInteractionData) :
  (Forall (λ o, do_Type o ≠ ApplicationCommandOptionSubCommand)
     (elements (data_Options data)) →
   Bindings.commandKey data = data_Name data)
  ∧ (∀ pre o post,
        elements (data_Options data) = pre ++ o :: post →
        Forall (λ o, do_Type o ≠ ApplicationCommandOptionSubCommand) pre →
        do_Type o = ApplicationCommandOptionSubCommand →
        Bindings.commandKey data = data_Name data +:+ "_" +:+ do_Name o).
Proof.
  unfold Bindings.commandKey. split.
  - intros Hnone. by rewrite subcommandSuffix_none, append_empty_r.
  - intros pre o post -> Hpre Ho. by rewrite subcommandSuffix_first.
Qed.

Lemma commandKey_first_subcommand_witness :
  Bindings.commandKey (mkData "foo" (slice [Sample.str_option "a" "x"])) = "foo"
  ∧ Bindings.commandKey Sample.foo_x_bar = "foo_bar".
Proof.
  split.
  - apply (proj1 (commandKey_first_subcommand
                    (mkData "foo" (slice [Sample.str_option "a" "x"])))).
    repeat constructor. simpl. discriminate.
  - apply (proj2 (commandKey_first_subcommand Sample.foo_x_bar)
             [Sample.str_option "a" "x"]
             (Sample.sub_option "bar" (slice [Sample.str_option "b" "y"])) []).
    + reflexivity.
    + repeat constructor. simpl. discriminate.
    + reflexivity.
Defined.

(** On a list that the platform does not send, the loop and the words of
    the specification part: in [foo_x_bar] the first option is a string
    option, so the key of the specification is "foo", while the loop passes
    over it and appends the subcommand that comes second. *)
Lemma commandKey_not_first_option :
  commandKey_first_option Sample.foo_x_bar = "foo"
  ∧ Bindings.commandKey Sample.foo_x_bar = "foo_bar"
  ∧ Bindings.commandKey Sample.foo_x_bar
    ≠ commandKey_first_option Sample.foo_x_bar.
Proof. split; [reflexivity|]. split; [reflexivity|]. discriminate. Qed.



(** ** Option flattening *)

Lemma obind_ret {A B : Type} (a : A) (k : A → Outcome B) : (Ret a ≫= k) = k a.
Proof. done. Qed.

Lemma obind_fail {A B : Type} (e : Failure) (k : A → Outcome B) :
  (Fail e ≫= k) = Fail e.
Proof. done. Qed.

Section Flattening.
Context `{Runtime}.

Lemma buildOptionsTable_cons T opt opts :
  Bindings.buildOptionsTable (Some T) (slice (opt :: opts)) =
  if decide (do_Type opt = ApplicationCommandOptionSubCommand)
  then if is_nilSlice (do_Options opt)
       then Bindings.buildOptionsTable (Some T) (slice opts)
       else Bindings.buildOptionsTable (Some T) (do_Options opt)
  else v ← Bindings.optionValue opt;
       Bindings.buildOptionsTable (Some (RawSetString T (do_Name opt) v))
         (slice opts).
Proof.
  simpl. destruct (decide _) as [Hsub|Hsub]; [|done].
  by destruct opt as [? ? ? [|inner]].
Qed.

Lemma buildOptionsTable_None options T :
  Bindings.buildOptionsTable T options =
  Bindings.buildOptionsTable (Some (default (mkTable []) T)) options.
Proof. by destruct options, T. Qed.

Lemma optionValue_not_nil opt v :
  Bindings.optionValue opt = Ret v → v ≠ LNil.
Proof.
  unfold Bindings.optionValue.
  repeat case_decide;
    [destruct (Bindings.IntValue opt)
    |destruct (Bindings.BoolValue opt)
    |destruct (Bindings.StringValue opt)
    |destruct (Bindings.FloatValue opt)
    |]; simpl; intros [= <-]; done.
Qed.

Lemma RawSetString_keeps T name v k :
  v ≠ LNil → RawGetString T k ≠ LNil →
  RawGetString (RawSetString T name v) k ≠ LNil.
Proof.
  intros Hv Hk. destruct (decide (name = k)) as [->|Hne].
  - by rewrite RawGetString_RawSetString_eq.
  - by rewrite RawGetString_RawSetString_ne.
Qed.

(** The traversal only ever adds to the table it is given. *)
Lemma buildOptionsTable_keeps options :
  ∀ T R k,
    Bindings.buildOptionsTable (Some T) options = Ret R →
    RawGetString T k ≠ LNil → RawGetString R k ≠ LNil.
Proof.
  induction options as [|opts IH] using DataOptions_nested_ind.
  - simpl. intros T R k [= <-]. done.
  - induction IH as [|o opts Ho _ IHopts]; intros T R k.
    + simpl. intros [= <-]. done.
    + rewrite buildOptionsTable_cons.
      destruct (decide _) as [Hty|Hty].
      * destruct (is_nilSlice (do_Options o)); [apply IHopts|apply Ho].
      * destruct (Bindings.optionValue o) as [v|e] eqn:Hv;
          rewrite ?obind_ret, ?obind_fail; [|done].
        intros HR Hk. eapply IHopts; [exact HR|].
        apply RawSetString_keeps; [|done].
        by eapply optionValue_not_nil.
Qed.

Lemma buildOptionsTable_flat_sets (pre : list DataOption) :
  Forall (λ o, descends o = false) pre →
  ∀ T T' o,
    Bindings.buildOptionsTable (Some T) (slice pre) = Ret T' →
    o ∈ pre → do_Type o ≠ ApplicationCommandOptionSubCommand →
    RawGetString T' (do_Name o) ≠ LNil.
Proof.
  induction 1 as [|p pre Hp _ IH]; intros T T' o Hrun Ho Hty.
  - by apply elem_of_nil in Ho.
  - rewrite buildOptionsTable_cons in Hrun.
    apply elem_of_cons in Ho as [->|Ho].
    + rewrite decide_False in Hrun by done.
      destruct (Bindings.optionValue p) as [v|e] eqn:Hv;
        rewrite ?obind_ret, ?obind_fail in Hrun; [|done].
      eapply buildOptionsTable_keeps; [exact Hrun|].
      rewrite RawGetString_RawSetString_eq. by eapply optionValue_not_nil.
    + destruct (decide (do_Type p = _)) as [Hsub|Hsub].
      * unfold descends in Hp.
        rewrite bool_decide_eq_true_2 in Hp by done. simpl in Hp.
        apply negb_false_iff in Hp. rewrite Hp in Hrun. by eapply IH.
      * destruct (Bindings.optionValue p) as [v|e];
          rewrite ?obind_ret, ?obind_fail in Hrun; [|done].
        by eapply IH.
Qed.

(** The traversal on any list.  When the option list holds a subcommand
    with options, preceded only by options at which the traversal does
    not descend, the flattened table is the flattening of the
    subcommand's options on top of the table that holds the options
    preceding it: the options that follow the subcommand are dropped, and
    every option that precedes it and is not a subcommand is still in the
    result. *)
Theorem buildOptionsTable_descends (T : option LTable)
    (pre post : list DataOption) (sub : DataOption) :
  Forall (λ o, descends o = false) pre →
  descends sub = true →
  Bindings.buildOptionsTable T (slice (pre ++ sub :: post)) =
  (T' ← Bindings.buildOptionsTable T (slice pre);
   Bindings.buildOptionsTable (Some T') (do_Options sub))
  ∧ ∀ R o,
      Bindings.buildOptionsTable T (slice (pre ++ sub :: post)) = Ret R →
      o ∈ pre → do_Type o ≠ ApplicationCommandOptionSubCommand →
      RawGetString R (do_Name o) ≠ LNil.
Proof.
  intros Hpre Hsub.
  assert (∀ T,
    Bindings.buildOptionsTable (Some T) (slice (pre ++ sub :: post)) =
    (T' ← Bindings.buildOptionsTable (Some T) (slice pre);
     Bindings.buildOptionsTable (Some T') (do_Options sub))) as Heq.
  { clear T. induction Hpre as [|o pre Ho _ IH]; intros T.
    - rewrite app_nil_l, buildOptionsTable_cons.
      unfold descends in Hsub. apply andb_true_iff in Hsub as [Hty Hopts].
      apply bool_decide_eq_true_1 in Hty. apply negb_true_iff in Hopts.
      by rewrite decide_True, Hopts.
    - rewrite <- app_comm_cons, !buildOptionsTable_cons.
      unfold descends in Ho.
      destruct (decide (do_Type o = _)) as [Hty|Hty].
      + rewrite bool_decide_eq_true_2 in Ho by done. simpl in Ho.
        apply negb_false_iff in Ho. rewrite Ho. apply IH.
      + destruct (Bindings.optionValue o) as [v|e]; simpl; [apply IH|done]. }
  rewrite (buildOptionsTable_None (slice (pre ++ sub :: post))),
    (buildOptionsTable_None (slice pre)).
  destruct T as [T|]; cbn [default]; (split; [apply Heq|]).
  all: intros R o HR Ho Hty; rewrite Heq in HR.
  all: match type of HR with
       | context [Bindings.buildOptionsTable ?t ?l ≫= _] =>
           destruct (Bindings.buildOptionsTable t l) as [T'|e] eqn:Hflat
       end; rewrite ?obind_ret, ?obind_fail in HR; [|done].
  all: eapply buildOptionsTable_keeps; [exact HR|].
  all: by eapply buildOptionsTable_flat_sets.
Qed.
End Flattening.

Lemma buildOptionsTable_descends_witness :
  Bindings.buildOptionsTable None (data_Options Sample.foo_x_bar) =
  Ret (mkTable [(LString "a", LString "x"); (LString "b", LString "y")]).
Proof.
  change (data_Options Sample.foo_x_bar)
    with (slice ([Sample.str_option "a" "x"]
                   ++ Sample.sub_option "bar" (slice [Sample.str_option "b" "y"])
                   :: [])).
  rewrite (proj1 (buildOptionsTable_descends None
                    [Sample.str_option "a" "x"] []
                    (Sample.sub_option "bar" (slice [Sample.str_option "b" "y"]))
                    ltac:(repeat constructor) eq_refl)).
  reflexivity.
Defined.

(** On a list that the platform does not send, a value option before the
    subcommand: the string option "a" stands on the shallow level, before
    the subcommand "bar", and is still in the table handed to the handler
    next to the nested option "b". *)
Lemma buildOptionsTable_keeps_shallow_option :
  ∃ T, Bindings.buildOptionsTable None (data_Options Sample.foo_x_bar) = Ret T
       ∧ RawGetString T "a" = LString "x"
       ∧ RawGetString T "b" = LString "y".
Proof. eexists. split; [reflexivity|]. split; reflexivity. Qed.

(** ** Registration of commands *)

Lemma entry_size (es : list (LValue * LValue)) (k : LValue) (t : LTable) :
  (k, LTableV t) ∈ es → (LTable_size t < LTable_size (mkTable es))%nat.
Proof.
  induction es as [|[k' v'] es IH]; intros Hin.
  - by apply elem_of_nil in Hin.
  - apply elem_of_cons in Hin as [[= <- <-]|Hin].
    + simpl. lia.
    + apply IH in Hin. simpl in *. lia.
Qed.

Lemma rawGetString_elem_of (es : list (LValue * LValue)) (k : string) (v : LValue) :
  rawGetString es k = v → v ≠ LNil → ∃ key, (key, v) ∈ es.
Proof.
  induction es as [|[key v'] es IH]; simpl; intros Hget Hv.
  - congruence.
  - destruct (key_is k key).
    + subst. exists key. apply elem_of_cons. by left.
    + destruct (IH Hget Hv) as [key' Hin]. exists key'.
      apply elem_of_cons. by right.
Qed.

Lemma RawGetString_size (t sub : LTable) (k : string) :
  RawGetString t k = LTableV sub → (LTable_size sub < LTable_size t)%nat.
Proof.
  destruct t as [es]. unfold RawGetString. simpl entries. intros Hget.
  destruct (rawGetString_elem_of es k _ Hget) as [key Hin]; [done|].
  by eapply entry_size.
Qed.

(** *** Running the monad *)

Lemma run_bind {S A B : Type} (m : M S A) (k : A → M S B) (s : S) :
  (m ≫= k) s =
  match m s with
  | (Ret a, s') => k a s'
  | (Fail e, s') => (Fail e, s')
  end.
Proof. done. Qed.

Lemma filter_app_log (p : Event → bool) (l : list Event) lvl msg :
  p (EvLog lvl msg) = false → filter p (l ++ [EvLog lvl msg]) = filter p l.
Proof.
  intros Hp. rewrite filter_app, filter_cons, decide_False, filter_nil.
  - apply app_nil_r.
  - rewrite Hp. exact id.
Qed.

Lemma creates_slog lvl msg w : creates (slog lvl msg w) = creates w.
Proof. by apply filter_app_log. Qed.

Lemma calls_slog lvl msg w : calls (slog lvl msg w) = calls w.
Proof. by apply filter_app_log. Qed.

(** *** What parsing the options leaves alone *)

Lemma frame_refl s : frame s s.
Proof. by repeat split. Qed.

Lemma frame_trans s1 s2 s3 : frame s1 s2 → frame s2 s3 → frame s1 s3.
Proof.
  intros (?&?&?&?&?) (?&?&?&?&?). repeat split; congruence.
Qed.

Lemma framed_ret {A : Type} (a : A) : framed (mret a).
Proof. intros s. split; [apply frame_refl|]. intros e [=]. Qed.

Lemma framed_bind {A B : Type} (m : M Bindings.BState A)
    (k : A → M Bindings.BState B) :
  framed m → (∀ a, framed (k a)) → framed (m ≫= k).
Proof.
  intros Hm Hk s. rewrite run_bind.
  destruct (Hm s) as [Hf He]. destruct (m s) as [[a|e] s1]; simpl in *.
  - destruct (Hk a s1) as [Hf' He']. split; [by eapply frame_trans|done].
  - split; [done|]. intros e' [= <-]. by apply He.
Qed.

Lemma framed_check (c : bool) (msg : string) :
  framed (check c (ArgError 1 msg)).
Proof.
  intros s. destruct c; simpl; (split; [apply frame_refl|]).
  - intros e [=].
  - intros e [= <-]. by eexists.
Qed.

Lemma framed_slog lvl msg : framed (Bindings.onWorld (slog lvl msg)).
Proof.
  intros [b w]. split; [|intros e [=]].
  repeat split; simpl; [apply creates_slog|apply calls_slog].
Qed.

Lemma framed_SetGlobal name v : framed (Bindings.onWorld (SetGlobal name v)).
Proof. intros [b w]. split; [|intros e [=]]. by repeat split. Qed.

Lemma framed_setCommand key name :
  framed (Bindings.onBinding (Bindings.setCommand key name)).
Proof. intros [b w]. split; [|intros e [=]]. by repeat split. Qed.

Section Registration.
Context `{Runtime}.

Lemma parseOptions_unfold parentName options :
  Bindings.parseOptions parentName options =
  Bindings.forEachOption Bindings.parseOptions parentName (entries options) [].
Proof. by destruct options. Qed.

Lemma optionCallback_framed rec parentName commandOptions value :
  (∀ optTable sub p,
      value = LTableV optTable →
      RawGetString optTable "options" = LTableV sub →
      framed (rec p sub)) →
  framed (Bindings.optionCallback rec parentName commandOptions value).
Proof.
  intros Hrec. destruct value as [| | | | | |optTable]; try apply framed_ret.
  cbn [Bindings.optionCallback].
  repeat (apply framed_bind; [apply framed_check|intros _]).
  apply framed_bind.
  - case_decide; [|apply framed_ret].
    apply framed_bind; [apply framed_check|intros _].
    apply framed_bind; [apply framed_SetGlobal|intros _].
    apply framed_bind; [apply framed_setCommand|intros _].
    rewrite withTableField_unfold.
    destruct (RawGetString optTable "options") as [| | | | | |sub] eqn:Hsub;
      try apply framed_ret.
    by apply (Hrec optTable).
  - intros option_Options.
    apply framed_bind; [apply framed_slog|intros _]. apply framed_ret.
Qed.

Lemma forEachOption_cons rec parentName key value es commandOptions :
  Bindings.forEachOption rec parentName ((key, value) :: es) commandOptions =
  (commandOptions' ←
     Bindings.optionCallback rec parentName commandOptions value;
   Bindings.forEachOption rec parentName es commandOptions').
Proof. done. Qed.

Lemma forEachOption_framed rec parentName es :
  (∀ key optTable sub p,
      (key, LTableV optTable) ∈ es →
      RawGetString optTable "options" = LTableV sub →
      framed (rec p sub)) →
  ∀ commandOptions,
    framed (Bindings.forEachOption rec parentName es commandOptions).
Proof.
  induction es as [|[key value] es IH]; intros Hrec commandOptions.
  - apply framed_ret.
  - rewrite forEachOption_cons. apply framed_bind.
    + apply optionCallback_framed. intros optTable sub p -> Hsub.
      apply (Hrec key optTable); [|done]. apply elem_of_cons. by left.
    + intros acc. apply IH. intros key' optTable sub p Hin.
      apply (Hrec key'). apply elem_of_cons. by right.
Qed.

Lemma parseOptions_framed options parentName :
  framed (Bindings.parseOptions parentName options).
Proof.
  remember (LTable_size options) as n eqn:Hn.
  revert options parentName Hn.
  induction n as [n IH] using lt_wf_ind. intros options parentName ->.
  rewrite parseOptions_unfold. apply forEachOption_framed.
  intros key optTable sub p Hin Hsub. eapply IH; [|done].
  pose proof (entry_size _ _ _ Hin) as Hopt.
  pose proof (RawGetString_size _ _ _ Hsub) as Hlt.
  destruct options as [es]. simpl in *. lia.
Qed.

(** [Register] on a descriptor that passes the four top-level checks. *)
Lemma Register_checked command rest s :
  LValue_Type (name_of command) = LTString →
  LValue_Type (description_of command) = LTString →
  handler_of command = LNil ∨ LValue_Type (handler_of command) = LTFunction →
  options_of command = LNil ∨ LValue_Type (options_of command) = LTTable →
  Bindings.Register (LTableV command :: rest) s =
  match parseCommandOptions command (storeHandler command s) with
  | (Ret commandOptions, s2) =>
      match Bindings.Session s2.1 with
      | None =>
          (Ret tt,
           (Bindings.appendWaitRegister
              (Bindings.mkDeferred (appCmd_of command commandOptions)
                 (name_of command)) s2.1, s2.2))
      | Some session =>
          (Bindings.createCommand session (LValue_String (name_of command))
             (appCmd_of command commandOptions);;
           Bindings.onWorld (slog Info "Registered command successfully")) s2
      end
  | (Fail e, s2) => (Fail e, s2)
  end.
Proof.
  intros Hname Hdesc Hhandler Hoptions.
  assert (is_nil (handler_of command)
          || bool_decide (LValue_Type (handler_of command) = LTFunction) = true)
    as Hh.
  { destruct Hhandler as [->|Hf]; [done|].
    rewrite (bool_decide_eq_true_2 _ Hf). apply orb_true_r. }
  assert (is_nil (options_of command)
          || bool_decide (LValue_Type (options_of command) = LTTable) = true)
    as Ho.
  { destruct Hoptions as [->|Hf]; [done|].
    rewrite (bool_decide_eq_true_2 _ Hf). apply orb_true_r. }
  unfold Bindings.Register, Bindings.CheckTable, storeHandler,
    parseCommandOptions, appCmd_of.
  unfold name_of, description_of, handler_of, options_of in *.
  unfold mbind, M_bind, bind, mret, M_ret, ret.
  rewrite (bool_decide_eq_true_2 _ Hname), (bool_decide_eq_true_2 _ Hdesc),
    Hh, Ho.
  cbn [check ret].
  destruct (is_nil (RawGetString command "handler")); cbn;
    (match goal with
     | |- context [let (_, _) := ?x in _] => destruct x as [[a|e] s2]
     end; [|done]);
    by destruct (Bindings.Session s2.1).
Qed.
End Registration.

Section RegisterErrors.
Context `{Runtime}.

Lemma is_nil_true v : is_nil v = true ↔ v = LNil.
Proof. by destruct v. Qed.

Lemma is_nil_false v : is_nil v = false ↔ v ≠ LNil.
Proof. by destruct v. Qed.

Lemma Register_not_table args s :
  (∀ command rest, args ≠ LTableV command :: rest) →
  Bindings.Register args s = (Fail (ArgError 1 "table expected"), s).
Proof.
  intros Hargs. destruct args as [|[| | | | | |command] rest]; try done.
  by destruct (Hargs command rest).
Qed.

Lemma Register_rejected command rest s :
  rejected command →
  ∃ msg, Bindings.Register (LTableV command :: rest) s
         = (Fail (ArgError 1 msg), s).
Proof.
  unfold rejected, Bindings.Register, Bindings.CheckTable.
  unfold mbind, M_bind, bind, mret, M_ret, ret. intros Hrej.
  case_bool_decide as Hname; cbn [check ret fail]; [|by eexists].
  case_bool_decide as Hdesc; cbn [check ret fail]; [|by eexists].
  destruct (is_nil (RawGetString command "handler")
            || bool_decide (LValue_Type (RawGetString command "handler")
                            = LTFunction)) eqn:Hh;
    cbn [check ret fail]; [|by eexists].
  destruct (is_nil (RawGetString command "options")
            || bool_decide (LValue_Type (RawGetString command "options")
                            = LTTable)) eqn:Ho;
    cbn [check ret fail]; [|by eexists].
  exfalso. destruct Hrej as [?|[?|[[Hnil Hty]|[Hnil Hty]]]]; try done.
  - apply orb_true_iff in Hh as [Hh|Hh].
    + by apply is_nil_true in Hh.
    + by apply bool_decide_eq_true_1 in Hh.
  - apply orb_true_iff in Ho as [Ho'|Ho'].
    + by apply is_nil_true in Ho'.
    + by apply bool_decide_eq_true_1 in Ho'.
Qed.

Lemma rejected_dec command :
  rejected command
  ∨ (LValue_Type (name_of command) = LTString
     ∧ LValue_Type (description_of command) = LTString
     ∧ (handler_of command = LNil
        ∨ LValue_Type (handler_of command) = LTFunction)
     ∧ (options_of command = LNil
        ∨ LValue_Type (options_of command) = LTTable)).
Proof.
  unfold rejected, name_of, description_of, handler_of, options_of.
  destruct (decide (LValue_Type (RawGetString command "name") = LTString));
    [|tauto].
  destruct (decide (LValue_Type (RawGetString command "description")
                    = LTString)); [|tauto].
  destruct (is_nil (RawGetString command "handler")) eqn:Hh;
    [apply is_nil_true in Hh|apply is_nil_false in Hh].
  all: destruct (is_nil (RawGetString command "options")) eqn:Ho;
    [apply is_nil_true in Ho|apply is_nil_false in Ho].
  all: destruct (decide (LValue_Type (RawGetString command "handler")
                         = LTFunction)).
  all: destruct (decide (LValue_Type (RawGetString command "options")
                         = LTTable)).
  all: tauto.
Qed.

Lemma storeHandler_frame command s : frame s (storeHandler command s).
Proof.
  unfold storeHandler. destruct (is_nil _); [apply frame_refl|].
  destruct s. by repeat split.
Qed.

Lemma parseCommandOptions_framed command : framed (parseCommandOptions command).
Proof.
  unfold parseCommandOptions.
  destruct (options_of command); try apply framed_ret.
  apply parseOptions_framed.
Qed.




End RegisterErrors.



(** ** Dispatch *)

(** Runs the binds of a computation whose first steps are known. *)
Ltac run_steps :=
  repeat first
    [ rewrite run_bind
    | progress cbn [modify liftO lift get ret fail mret M_ret fst snd] ].

Section Dispatch.
Context `{Runtime}.

Lemma HandleInteraction_registered b i w globalName :
  i_Type i = InteractionApplicationCommand →
  Bindings.Commands b !! Bindings.commandKey (i_Data i) = Some globalName →
  Bindings.HandleInteraction b i w =
  (Ret None,
   Do (Bindings.handlerTask b i globalName)
     (slog Info "Handling command interaction" w)).
Proof.
  intros Hty Hkey. unfold Bindings.HandleInteraction.
  unfold Bindings.ApplicationCommandData. rewrite decide_True by done.
  run_steps. rewrite Hkey. by run_steps.
Qed.

Lemma HandleInteraction_not_registered b i w :
  i_Type i = InteractionApplicationCommand →
  Bindings.Commands b !! Bindings.commandKey (i_Data i) = None →
  Bindings.HandleInteraction b i w =
  (Ret (Some ("command '" +:+ Bindings.commandKey (i_Data i)
              +:+ "' not registered")),
   slog Warn "Command not registered"
     (slog Info "Handling command interaction" w)).
Proof.
  intros Hty Hkey. unfold Bindings.HandleInteraction.
  unfold Bindings.ApplicationCommandData. rewrite decide_True by done.
  run_steps. rewrite Hkey. by run_steps.
Qed.

Lemma handlerTask_missing b i globalName w :
  GetGlobal globalName w = LNil →
  Do (Bindings.handlerTask b i globalName) w =
  slog Error "Lua handler not implemented"
    (slog Debug "Executing Lua handler" w).
Proof.
  intros Hfn. unfold Do, Bindings.handlerTask. run_steps.
  replace (GetGlobal globalName (slog Debug "Executing Lua handler" w))
    with LNil by done.
  by run_steps.
Qed.

Lemma handlerTask_called b i globalName w f T :
  GetGlobal globalName w = LFunction f →
  Bindings.prepareInteractionTable b i = Ret T →
  Do (Bindings.handlerTask b i globalName) w =
  let w1 := emit (EvCall f [LTableV T]) (slog Debug "Executing Lua handler" w) in
  match script_call f [LTableV T] (globals w) with
  | (Some _, g) =>
      slog Error "Error executing Lua command handler" (mkWorld g (trace w1))
  | (None, g) =>
      slog Info "Command handled successfully" (mkWorld g (trace w1))
  end.
Proof.
  intros Hfn HT. unfold Do, Bindings.handlerTask. run_steps.
  replace (GetGlobal globalName (slog Debug "Executing Lua handler" w))
    with (LFunction f) by done.
  cbn [is_nil]. rewrite HT. run_steps.
  unfold call, CallByParam, lift. cbn beta. cbn [globals emit slog].
  by destruct (script_call f [LTableV T] (globals w)) as [[err|] g].
Qed.

(** C10. When the computed key has a handler entry, [HandleInteraction]
    returns nil whatever happens to the handler: a handler global that is
    missing is logged as an error, and so is an error raised by the
    handler; neither reaches the dispatcher. *)
Theorem HandleInteraction_registered_returns_nil
    (b : Bindings.ApplicationCommandBinding) (i : InteractionCreate)
    (w : World) (globalName : string) :
  i_Type i = InteractionApplicationCommand →
  Bindings.Commands b !! Bindings.commandKey (i_Data i) = Some globalName →
  (Bindings.HandleInteraction b i w).1 = Ret None
  ∧ (GetGlobal globalName w = LNil →
     (Bindings.HandleInteraction b i w).2 =
     mkWorld (globals w)
       (trace w ++ [EvLog Info "Handling command interaction";
                    EvLog Debug "Executing Lua handler";
                    EvLog Error "Lua handler not implemented"]))
  ∧ (∀ f T err g,
        GetGlobal globalName w = LFunction f →
        Bindings.prepareInteractionTable b i = Ret T →
        script_call f [LTableV T] (globals w) = (Some err, g) →
        (Bindings.HandleInteraction b i w).2 =
        mkWorld g
          (trace w ++ [EvLog Info "Handling command interaction";
                       EvLog Debug "Executing Lua handler";
                       EvCall f [LTableV T];
                       EvLog Error "Error executing Lua command handler"])).
Proof.
  intros Hty Hkey. rewrite (HandleInteraction_registered _ _ _ _ Hty Hkey).
  split; [done|]. split.
  - intros Hfn. cbn [snd]. rewrite handlerTask_missing by done.
    unfold slog, emit. cbn [globals trace]. by rewrite <- !app_assoc.
  - intros f T err g Hfn HT Hcall. cbn [snd].
    rewrite (handlerTask_called _ _ _ _ f T) by done.
    cbn [globals slog emit]. rewrite Hcall.
    unfold slog, emit. cbn [globals trace]. by rewrite <- !app_assoc.
Qed.

(** *** The dispatcher *)

Lemma handleGroup_app g1 g2 i w :
  Manager.handleGroup (g1 ++ g2) i w =
  (handled ← Manager.handleGroup g1 i;
   if handled : bool then mret true else Manager.handleGroup g2 i) w.
Proof.
  revert w. induction g1 as [|lb g1 IH]; intros w; [done|].
  cbn [app Manager.handleGroup].
  destruct (Manager.LuaBinding_CanHandleInteraction lb i); [|apply IH].
  run_steps.
  destruct (Manager.LuaBinding_HandleInteraction lb i _) as [[[err|]|e] w1];
    [|done|done].
  run_steps. rewrite IH. by run_steps.
Qed.

Lemma handleGroups_concat groups i w :
  Manager.handleGroups groups i w = Manager.handleGroup (concat groups.*2) i w.
Proof.
  revert w. induction groups as [|[name group] groups IH]; intros w; [done|].
  cbn [Manager.handleGroups fmap list_fmap concat snd].
  rewrite handleGroup_app. run_steps.
  destruct (Manager.handleGroup group i w) as [[[|]|e] w1]; [done| |done].
  apply IH.
Qed.

Lemma handleGroup_none group i w :
  Forall (λ lb, Manager.LuaBinding_CanHandleInteraction lb i = false) group →
  Manager.handleGroup group i w = (Ret false, w).
Proof.
  induction 1 as [|lb group Hlb _ IH]; [done|].
  cbn [Manager.handleGroup]. by rewrite Hlb.
Qed.

(** C7. For an application-command event whose key has no handler entry,
    [HandleInteraction] returns the error "command '<key>' not registered"
    after logging a warning and calls no script function; the dispatcher,
    in which this binding is the one that claims the event, logs warnings
    and returns normally. *)
Theorem unregistered_command_is_only_logged
    (b : Bindings.ApplicationCommandBinding) (i : InteractionCreate)
    (w : World) :
  i_Type i = InteractionApplicationCommand →
  Bindings.Commands b !! Bindings.commandKey (i_Data i) = None →
  Bindings.HandleInteraction b i w =
  (Ret (Some ("command '" +:+ Bindings.commandKey (i_Data i)
              +:+ "' not registered")),
   mkWorld (globals w)
     (trace w ++ [EvLog Info "Handling command interaction";
                  EvLog Warn "Command not registered"]))
  ∧ ∀ m pre post,
      concat (Manager.Bindings m).*2 = pre ++ Manager.AppCommand b :: post →
      Forall (λ lb, Manager.LuaBinding_CanHandleInteraction lb i = false)
        (pre ++ post) →
      Manager.HandleCommand m i w =
      (Ret tt,
       mkWorld (globals w)
         (trace w ++ [EvLog Debug "Binding matched for interaction";
                      EvLog Info "Handling command interaction";
                      EvLog Warn "Command not registered";
                      EvLog Warn "Error handling interaction with binding";
                      EvLog Warn "Command binding not found"])).
Proof.
  intros Hty Hkey.
  assert (∀ w,
    Bindings.HandleInteraction b i w =
    (Ret (Some ("command '" +:+ Bindings.commandKey (i_Data i)
                +:+ "' not registered")),
     mkWorld (globals w)
       (trace w ++ [EvLog Info "Handling command interaction";
                    EvLog Warn "Command not registered"]))) as Hhandle.
  { intros w'. rewrite (HandleInteraction_not_registered _ _ _ Hty Hkey).
    unfold slog, emit. cbn [globals trace]. by rewrite <- !app_assoc. }
  split; [apply Hhandle|].
  intros m pre post Hbindings Hothers.
  apply Forall_app in Hothers as [Hpre Hpost].
  unfold Manager.HandleCommand. run_steps.
  rewrite handleGroups_concat, Hbindings, handleGroup_app. run_steps.
  rewrite (handleGroup_none _ _ _ Hpre). run_steps.
  cbn [Manager.handleGroup Manager.LuaBinding_CanHandleInteraction
         Manager.LuaBinding_HandleInteraction].
  unfold Bindings.CanHandleInteraction. rewrite bool_decide_eq_true_2 by done.
  run_steps. rewrite Hhandle. run_steps.
  rewrite (handleGroup_none _ _ _ Hpost). run_steps.
  unfold modify, slog, emit. cbn [globals trace]. by rewrite <- !app_assoc.
Qed.
End Dispatch.

Lemma HandleInteraction_registered_returns_nil_witness :
  (Bindings.HandleInteraction Sample.registered.1 Sample.foo_bar
     Sample.registered.2).1 = Ret None
  ∧ calls (Bindings.HandleInteraction Sample.registered.1 Sample.foo_bar
             Sample.registered.2).2
    = [EvCall 13
         [LTableV (mkTable [(LString "id", LString "1");
                            (LString "options",
                             LTableV (mkTable [(LString "b", LString "y")]))])]].
Proof.
  pose proof (HandleInteraction_registered_returns_nil
                Sample.registered.1 Sample.foo_bar Sample.registered.2
                "handler_foo_bar" eq_refl eq_refl) as (Hnil & _ & Herr).
  split; [exact Hnil|].
  rewrite (Herr 13
             (mkTable [(LString "id", LString "1");
                       (LString "options",
                        LTableV (mkTable [(LString "b", LString "y")]))])
             "boom" (globals Sample.registered.2) eq_refl eq_refl eq_refl).
  reflexivity.
Defined.

Lemma unregistered_command_is_only_logged_witness :
  Bindings.HandleInteraction Sample.fresh.1 Sample.foo_bar Sample.w0 =
  (Ret (Some "command 'foo_bar' not registered"),
   mkWorld ∅ [EvLog Info "Handling command interaction";
              EvLog Warn "Command not registered"])
  ∧ Manager.HandleCommand (Sample.manager Sample.fresh.1) Sample.foo_bar
      Sample.w0 =
    (Ret tt,
     mkWorld ∅ [EvLog Debug "Binding matched for interaction";
                EvLog Info "Handling command interaction";
                EvLog Warn "Command not registered";
                EvLog Warn "Error handling interaction with binding";
                EvLog Warn "Command binding not found"]).
Proof.
  pose proof (unregistered_command_is_only_logged
                Sample.fresh.1 Sample.foo_bar Sample.w0 eq_refl eq_refl)
    as [Hhandle Hdispatch].
  split; [exact Hhandle|].
  apply (Hdispatch (Sample.manager Sample.fresh.1) []
           [Manager.Other Sample.silent]); [reflexivity|].
  repeat constructor.
Defined.

(** ** A command with one subcommand *)

(** C4, as the specification words it, fails when the command "foo" carries
    a handler of its own next to the subcommand "bar": both entries exist,
    the bare key "foo" next to the combined key "foo_bar". *)
Lemma bare_key_next_to_combined_key :
  let r := Bindings.Register
             [LTableV (Sample.foo_command (LFunction 3) (LFunction 7))]
             Sample.fresh in
  r.1 = Ret tt
  ∧ Bindings.Commands r.2.1 !! "foo_bar" = Some "handler_foo_bar"
  ∧ Bindings.Commands r.2.1 !! "foo" = Some "handler_foo".
Proof. vm_compute. repeat split. Qed.

(** ** Deferred registration *)

Section Deferred.
Context `{Runtime}.

Lemma Register_unbound args s :
  Bindings.Session s.1 = None →
  creates (Bindings.Register args s).2.2 = creates s.2
  ∧ Bindings.Session (Bindings.Register args s).2.1 = None
  ∧ match (Bindings.Register args s).1 with
    | Ret _ =>
        ∃ d, Bindings.waitRegister (Bindings.Register args s).2.1
             = Bindings.waitRegister s.1 ++ [d]
    | Fail _ =>
        Bindings.waitRegister (Bindings.Register args s).2.1
        = Bindings.waitRegister s.1
    end.
Proof.
  intros Hunbound. destruct args as [|v rest].
  { by rewrite Register_not_table. }
  destruct v as [| | | | | |command]; try by rewrite Register_not_table.
  destruct (rejected_dec command) as [Hrej|(Hn&Hd&Hh&Ho)].
  { destruct (Register_rejected command rest s Hrej) as [msg ->]. done. }
  rewrite Register_checked by done.
  destruct (parseCommandOptions_framed command (storeHandler command s))
    as [Hf _].
  pose proof (frame_trans _ _ _ (storeHandler_frame command s) Hf)
    as (HS&HG&HW&HC&_).
  destruct (parseCommandOptions command (storeHandler command s))
    as [[opts|e'] s2]; cbn [fst snd] in *; [|by rewrite HS].
  rewrite HS, Hunbound. cbn [fst snd Bindings.appendWaitRegister
                               Bindings.Session Bindings.waitRegister].
  rewrite HS, HW. eauto.
Qed.

Lemma forRange_callDeferred session l b w :
  Forall (accepted session (Bindings.GuildID b)) l →
  forRange (Bindings.callDeferred session) l (b, w) =
  (Ret tt,
   (b, mkWorld (globals w)
         (trace w ++ (replayed session (Bindings.GuildID b) <$> l)))).
Proof.
  intros Hl. revert w. induction Hl as [|d l Hd _ IH]; intros w.
  - cbn [forRange ret fmap list_fmap]. rewrite app_nil_r. by destruct w.
  - cbn [forRange]. rewrite run_bind.
    unfold Bindings.callDeferred at 1, Bindings.createCommand.
    run_steps. unfold Bindings.onWorld. run_steps.
    unfold accepted in Hd. rewrite Hd. run_steps.
    rewrite IH. unfold emit. cbn [globals trace fmap list_fmap].
    by rewrite <- app_assoc.
Qed.

Lemma SetSession_replays session s :
  Forall (accepted session (Bindings.GuildID s.1)) (Bindings.waitRegister s.1) →
  Bindings.SetSession session s =
  (Ret tt,
   (Bindings.setSessionField session s.1,
    mkWorld (globals s.2)
      (trace s.2
         ++ EvLog Info "Setting session for ApplicationCommandBinding"
         :: (replayed session (Bindings.GuildID s.1)
               <$> Bindings.waitRegister s.1)))).
Proof.
  intros Hok. destruct s as [b w]. unfold Bindings.SetSession.
  unfold Bindings.onWorld, Bindings.onBinding. run_steps.
  cbn [Bindings.setSessionField Bindings.waitRegister].
  rewrite forRange_callDeferred by done.
  unfold slog, emit. cbn [globals trace Bindings.GuildID].
  by rewrite <- app_assoc.
Qed.

Lemma creates_replayed session guildID (l : list Bindings.DeferredRegistration) :
  filter is_create (replayed session guildID <$> l)
  = replayed session guildID <$> l.
Proof.
  induction l as [|d l IH]; [done|].
  cbn [fmap list_fmap]. rewrite filter_cons, decide_True by done.
  f_equal. apply IH.
Qed.

(** C1, as the code has it.  A registration made while the session is
    absent calls nothing on the platform and leaves the session absent;
    when it succeeds it appends one closure to the pending list, and when
    it fails it leaves the list as it was.  When the session is supplied
    and the platform accepts every pending command, [SetSession] replays
    every pending closure once, in the order of the list, and keeps the
    list: it is not emptied by the replay. *)
Theorem deferred_registrations_replayed_in_order (s : Bindings.BState) :
  (∀ args,
      Bindings.Session s.1 = None →
      creates (Bindings.Register args s).2.2 = creates s.2
      ∧ Bindings.Session (Bindings.Register args s).2.1 = None
      ∧ match (Bindings.Register args s).1 with
        | Ret _ =>
            ∃ d, Bindings.waitRegister (Bindings.Register args s).2.1
                 = Bindings.waitRegister s.1 ++ [d]
        | Fail _ =>
            Bindings.waitRegister (Bindings.Register args s).2.1
            = Bindings.waitRegister s.1
        end)
  ∧ (∀ session,
        Forall (accepted session (Bindings.GuildID s.1))
          (Bindings.waitRegister s.1) →
        (Bindings.SetSession session s).1 = Ret tt
        ∧ creates (Bindings.SetSession session s).2.2
          = creates s.2
            ++ (replayed session (Bindings.GuildID s.1)
                  <$> Bindings.waitRegister s.1)
        ∧ Bindings.Session (Bindings.SetSession session s).2.1 = Some session
        ∧ Bindings.GuildID (Bindings.SetSession session s).2.1
          = Bindings.GuildID s.1
        ∧ Bindings.waitRegister (Bindings.SetSession session s).2.1
          = Bindings.waitRegister s.1).
Proof.
  split; [intros args; apply Register_unbound|].
  intros session Hok. rewrite SetSession_replays by done.
  cbn [fst snd]. split; [done|]. split; [|done].
  unfold creates. cbn [trace]. rewrite filter_app, filter_cons.
  rewrite decide_False by (simpl; exact id).
  by rewrite creates_replayed.
Qed.
End Deferred.

Lemma deferred_registrations_replayed_in_order_witness :
  creates (Bindings.Register [LTableV (Sample.command (LString "first"))]
             Sample.fresh).2.2 = []
  ∧ creates (Bindings.SetSession Sample.session Sample.queued).2.2
    = [Sample.created "first"; Sample.created "second"; Sample.created "third"]
  ∧ length (Bindings.waitRegister
              (Bindings.SetSession Sample.session Sample.queued).2.1) = 3%nat.
Proof.
  split.
  - apply (proj1 (deferred_registrations_replayed_in_order Sample.fresh)
             [LTableV (Sample.command (LString "first"))] eq_refl).
  - pose proof (proj2 (deferred_registrations_replayed_in_order Sample.queued)
                  Sample.session ltac:(repeat constructor))
      as (_ & Hcreates & _ & _ & Hwait).
    split.
    + rewrite Hcreates. reflexivity.
    + rewrite Hwait. reflexivity.
Defined.

(** C1, as the specification words it, fails: the replay does not discard
    the pending list, so supplying the session a second time registers the
    pending commands with the platform a second time. *)
Lemma second_SetSession_replays_again :
  let s1 := (Bindings.SetSession Sample.session Sample.queued).2 in
  let s2 := (Bindings.SetSession Sample.session s1).2 in
  creates s1.2
  = [Sample.created "first"; Sample.created "second"; Sample.created "third"]
  ∧ creates s2.2
    = [Sample.created "first"; Sample.created "second"; Sample.created "third";
       Sample.created "first"; Sample.created "second"; Sample.created "third"].
Proof. vm_compute. split; reflexivity. Qed.

(** A replayed registration that the platform rejects raises from inside
    [SetSession]: the closures queued after it are not run. *)
Example SetSession_stops_at_rejected_command :
  (Bindings.SetSession Sample.picky_session Sample.queued).1
  = Fail (RaiseError
            "failed to register command 'second' with Discord: rejected")
  ∧ creates (Bindings.SetSession Sample.picky_session Sample.queued).2.2
    = [Sample.created "first"; Sample.created "second"].
Proof. vm_compute. split; reflexivity. Qed.

(** ** Ready callbacks *)

Lemma ready_name_inj : Inj (=) (=) ready_name.
Proof.
  intros t1 t2 Heq. unfold ready_name in Heq.
  apply (inj (String.app "on_ready_handler_")) in Heq.
  by apply (inj pretty) in Heq.
Qed.

Lemma on_ready_function now f rest s :
  Manager.on_ready now (LFunction f :: rest) s =
  (Ret tt,
   (Manager.mkManager (Manager.Bindings s.1)
      (Manager.OnReadyCbs s.1 ++ [ready_name now]),
    SetGlobal (ready_name now) (LFunction f) s.2)).
Proof. done. Qed.

(** C6 fails on the code: the identifier is the Unix time in seconds, so
    two registrations within the same second mint the same global name;
    the second callback replaces the first under that name, and the name
    is in the list twice. *)
Theorem on_ready_same_second_collides (now : Z) (f1 f2 : FnId)
    (s : Manager.MState) :
  let s1 := (Manager.on_ready now [LFunction f1] s).2 in
  let s2 := (Manager.on_ready now [LFunction f2] s1).2 in
  Manager.OnReadyCbs s2.1
  = Manager.OnReadyCbs s.1 ++ [ready_name now; ready_name now]
  ∧ GetGlobal (ready_name now) s2.2 = LFunction f2.
Proof.
  cbv zeta. rewrite !on_ready_function. cbn [fst snd Manager.OnReadyCbs]. split.
  - by rewrite <- app_assoc.
  - unfold GetGlobal, SetGlobal. cbn [globals]. by rewrite lookup_insert_eq.
Qed.

Section Ready.
Context `{Runtime}.

Lemma register_ready_snoc regs r s :
  register_ready (regs ++ [r]) s =
  (Manager.on_ready r.2 [LFunction r.1] (register_ready regs s)).2.
Proof. unfold register_ready. by rewrite foldl_app. Qed.

Lemma register_ready_state regs s :
  Manager.Bindings (register_ready regs s).1 = Manager.Bindings s.1
  ∧ Manager.OnReadyCbs (register_ready regs s).1
    = Manager.OnReadyCbs s.1 ++ (ready_name <$> regs.*2)
  ∧ trace (register_ready regs s).2 = trace s.2.
Proof.
  induction regs as [|r regs IH] using rev_ind.
  - cbn. by rewrite app_nil_r.
  - destruct IH as (IHb & IHc & IHt).
    rewrite register_ready_snoc, on_ready_function. cbn [fst snd].
    cbn [Manager.Bindings Manager.OnReadyCbs SetGlobal trace].
    rewrite IHc, !fmap_app, app_assoc. done.
Qed.

Lemma register_ready_globals regs s f t :
  NoDup regs.*2 → (f, t) ∈ regs →
  globals (register_ready regs s).2 !! ready_name t = Some (LFunction f).
Proof.
  induction regs as [|r regs IH] using rev_ind; intros Hnd Hin.
  - by apply elem_of_nil in Hin.
  - rewrite register_ready_snoc, on_ready_function. cbn [snd SetGlobal globals].
    rewrite !fmap_app in Hnd. apply NoDup_app in Hnd as (Hnd & Hfresh & _).
    apply elem_of_app in Hin as [Hin|Hin].
    + rewrite lookup_insert_ne; [by apply IH|].
      intros Heq. apply ready_name_inj in Heq.
      apply (Hfresh t).
      * by apply (list_elem_of_fmap_2 snd _ (f, t)).
      * cbn. rewrite Heq. apply elem_of_cons. by left.
    + apply list_elem_of_singleton in Hin as <-. cbn [fst snd].
      by rewrite lookup_insert_eq.
Qed.




End Ready.



(** Three callbacks registered within one second share one global: at
    readiness the last one is invoked three times, the first two never. *)
Example ready_after_collision :
  calls (Manager.ReadyHandler Sample.session
           (register_ready [(1, 100%Z); (2, 100%Z); (3, 100%Z)]
              Sample.started)).2.2
  = [EvCall 3 []; EvCall 3 []; EvCall 3 []].
Proof. vm_compute. reflexivity. Qed.

(** * Further properties of the code *)

(** ** Component marshalling: rows *)

Section ComponentRows.
Context `{Runtime}.

Lemma parseComponent_acc components value :
  Utils.parseComponent components value
  = components ++ Utils.parseComponent [] value.
Proof.
  destruct value as [| | | | | |t]; cbn [Utils.parseComponent];
    rewrite ?app_nil_r; try done.
  destruct (String.eqb _ "button"); [done|].
  destruct (String.eqb _ "select"); [|by rewrite app_nil_r].
  destruct (RawGetString t "options"); by rewrite ?app_nil_r.
Qed.

Lemma foldl_parseComponent_acc vs components :
  foldl Utils.parseComponent components vs
  = components ++ foldl Utils.parseComponent [] vs.
Proof.
  revert components. induction vs as [|v vs IH]; intros components.
  - cbn. by rewrite app_nil_r.
  - cbn [foldl]. rewrite IH, (IH (Utils.parseComponent [] v)).
    by rewrite parseComponent_acc, app_assoc.
Qed.

Lemma parseComponent_row_component value :
  Forall row_component (Utils.parseComponent [] value).
Proof.
  destruct value as [| | | | | |t]; cbn [Utils.parseComponent]; try done.
  destruct (String.eqb _ "button"); [by repeat constructor|].
  destruct (String.eqb _ "select"); [|done].
  destruct (RawGetString t "options"); by repeat constructor.
Qed.

Lemma ParseComponents_row table cs :
  Utils.ParseComponents table = ([ActionsRow cs], None) →
  cs = foldl Utils.parseComponent [] (values table).
Proof.
  unfold Utils.ParseComponents. case_decide; [|done]. by intros [= <-].
Qed.

(** X1. When at least one entry of the table is a valid component, the
    result is one action row and no error, and the row holds exactly as many
    components as the table has valid entries: the other entries are
    skipped. *)
Theorem ParseComponents_counts_valid_entries (table : LTable) :
  Exists (λ v, Utils.valid_entry v = true) (values table) →
  ∃ cs, Utils.ParseComponents table = ([ActionsRow cs], None)
        ∧ length cs
          = length (filter (λ v, Utils.valid_entry v = true) (values table)).
Proof.
  intros Hex. exists (foldl Utils.parseComponent [] (values table)).
  pose proof (foldl_parseComponent_length (values table) []) as Hlen.
  cbn [length Nat.add] in Hlen. split; [|done].
  unfold Utils.ParseComponents. rewrite decide_True; [done|].
  rewrite Hlen. apply Exists_exists in Hex as (v & Hin & Hv).
  assert (v ∈ filter (λ v, Utils.valid_entry v = true) (values table)) as Hf.
  { by apply list_elem_of_filter. }
  destruct (filter _ _); [by apply elem_of_nil in Hf|cbn; lia].
Qed.

(** X2. Entries are marshalled one by one, in order: the row of a table
    whose entries are those of a first table followed by those of a second
    is the row of the first followed by the row of the second, and leading
    entries that yield no component change nothing. *)
Theorem ParseComponents_app (es1 es2 : list (LValue * LValue)) :
  (∀ cs1 cs2,
      Utils.ParseComponents (mkTable es1) = ([ActionsRow cs1], None) →
      Utils.ParseComponents (mkTable es2) = ([ActionsRow cs2], None) →
      Utils.ParseComponents (mkTable (es1 ++ es2))
      = ([ActionsRow (cs1 ++ cs2)], None))
  ∧ (Forall (λ v, Utils.valid_entry v = false) es1.*2 →
     Utils.ParseComponents (mkTable (es1 ++ es2))
     = Utils.ParseComponents (mkTable es2)).
Proof.
  assert (foldl Utils.parseComponent [] (values (mkTable (es1 ++ es2)))
          = foldl Utils.parseComponent [] es1.*2
              ++ foldl Utils.parseComponent [] es2.*2) as Happ.
  { unfold values. cbn [entries]. rewrite fmap_app, foldl_app.
    apply foldl_parseComponent_acc. }
  split.
  - intros cs1 cs2 H1 H2.
    apply ParseComponents_row in H1 as Hcs1.
    apply ParseComponents_row in H2 as Hcs2.
    unfold values in Hcs1, Hcs2. cbn [entries] in Hcs1, Hcs2.
    unfold Utils.ParseComponents in *. rewrite Happ, <- Hcs1, <- Hcs2.
    unfold values in H1. cbn [entries] in H1. rewrite <- Hcs1 in H1.
    destruct (decide (0 < length cs1)) as [Hlen1|]; [|done].
    rewrite decide_True; [done|]. rewrite length_app. lia.
  - intros Hnone.
    pose proof (foldl_parseComponent_length es1.*2 []) as Hlen.
    assert (filter (λ v, Utils.valid_entry v = true) es1.*2 = []) as Hfil.
    { clear Hlen Happ. induction Hnone as [|v vs Hv _ IH]; [done|].
      rewrite filter_cons, decide_False; [done|]. by rewrite Hv. }
    rewrite Hfil in Hlen. cbn in Hlen.
    apply nil_length_inv in Hlen.
    unfold Utils.ParseComponents. rewrite Happ, Hlen. done.
Qed.

(** X3. Whatever the entries say, every component of the row is a button
    of the primary style or a select menu: a [style] field of an entry is
    not read, and a row never holds a row. *)
Theorem ParseComponents_row_components (table : LTable)
    (cs : list MessageComponent) :
  Utils.ParseComponents table = ([ActionsRow cs], None) →
  Forall row_component cs.
Proof.
  intros ->%ParseComponents_row.
  induction (values table) as [|v vs IH] using rev_ind; [done|].
  rewrite foldl_app. cbn [foldl]. rewrite parseComponent_acc.
  apply Forall_app. split; [done|apply parseComponent_row_component].
Qed.
End ComponentRows.

Lemma ParseComponents_counts_valid_entries_witness :
  ∃ cs, Utils.ParseComponents (mkTable Sample.two_components)
        = ([ActionsRow cs], None)
        ∧ length cs = 2%nat.
Proof.
  apply (ParseComponents_counts_valid_entries (mkTable Sample.two_components)).
  apply Exists_cons_tl, Exists_cons_hd. reflexivity.
Defined.

Lemma ParseComponents_app_witness :
  Utils.ParseComponents
    (mkTable (entries Sample.go_button ++ Sample.two_components))
  = ([ActionsRow
        [Button "Go" "go_btn" PrimaryButton false;
         Button "A" "a" PrimaryButton false;
         SelectMenu "nil" "s" [mkSelectMenuOption "x" "1"] false]], None)
  ∧ Utils.ParseComponents
      (mkTable (entries Sample.no_component ++ Sample.two_components))
    = Utils.ParseComponents (mkTable Sample.two_components).
Proof.
  split.
  - apply (proj1 (ParseComponents_app (entries Sample.go_button)
                    Sample.two_components)
             [Button "Go" "go_btn" PrimaryButton false]
             [Button "A" "a" PrimaryButton false;
              SelectMenu "nil" "s" [mkSelectMenuOption "x" "1"] false]);
      reflexivity.
  - apply (proj2 (ParseComponents_app (entries Sample.no_component)
                    Sample.two_components)).
    repeat constructor.
Defined.

Lemma ParseComponents_row_components_witness :
  Forall row_component
    [Button "A" "a" PrimaryButton false;
     SelectMenu "nil" "s" [mkSelectMenuOption "x" "1"] false].
Proof.
  apply (ParseComponents_row_components (mkTable Sample.two_components)).
  reflexivity.
Defined.

(** ** What a registration writes *)



(** A relation that the steps of a registration keep is kept by the
    registration.  [K] holds of the names that the parsing of options takes
    as parent name, and [W] of the names under which handlers are
    stored. *)
Section Preserved.
Context `{Runtime}.
Variable R : Bindings.BState → Bindings.BState → Prop.
Variable K : string → Prop.
Variable W : string → Prop.
Hypothesis R_refl : ∀ s, R s s.
Hypothesis R_trans : ∀ s1 s2 s3, R s1 s2 → R s2 s3 → R s1 s3.
Hypothesis K_extend : ∀ parent x, K parent → K (parent +:+ "_" +:+ x).
Hypothesis W_extend : ∀ parent x, K parent → W (parent +:+ "_" +:+ x).
Hypothesis R_emit : ∀ s e, R s (s.1, emit e s.2).
Hypothesis R_SetGlobal :
  ∀ s n v, W n → R s (s.1, SetGlobal ("handler_" +:+ n) v s.2).
Hypothesis R_setCommand :
  ∀ s n name, W n → R s (Bindings.setCommand n name s.1, s.2).
Hypothesis R_append : ∀ s d, R s (Bindings.appendWaitRegister d s.1, s.2).

Lemma preserved_ret {A : Type} (a : A) : preserved R (mret a).
Proof. intros s. apply R_refl. Qed.

Lemma preserved_bind {A B : Type} (m : M Bindings.BState A)
    (k : A → M Bindings.BState B) :
  preserved R m → (∀ a, preserved R (k a)) → preserved R (m ≫= k).
Proof.
  intros Hm Hk s. rewrite run_bind. specialize (Hm s).
  destruct (m s) as [[a|e] s1]; cbn [snd] in *; [|done].
  eapply R_trans; [exact Hm|apply Hk].
Qed.

Lemma preserved_check (c : bool) (e : Failure) : preserved R (check c e).
Proof. intros s. destruct c; apply R_refl. Qed.

Lemma preserved_slog lvl msg : preserved R (Bindings.onWorld (slog lvl msg)).
Proof. intros s. apply R_emit. Qed.

Lemma optionCallback_preserved rec parentName commandOptions value :
  K parentName →
  (∀ optTable sub p,
      value = LTableV optTable →
      RawGetString optTable "options" = LTableV sub →
      K p → preserved R (rec p sub)) →
  preserved R (Bindings.optionCallback rec parentName commandOptions value).
Proof.
  intros HK Hrec.
  destruct value as [| | | | | |optTable]; try apply preserved_ret.
  cbn [Bindings.optionCallback].
  repeat (apply preserved_bind; [apply preserved_check|intros _]).
  apply preserved_bind.
  - case_decide; [|apply preserved_ret].
    apply preserved_bind; [apply preserved_check|intros _].
    apply preserved_bind; [intros s; by apply R_SetGlobal, W_extend|intros _].
    apply preserved_bind; [intros s; by apply R_setCommand, W_extend|intros _].
    rewrite withTableField_unfold.
    destruct (RawGetString optTable "options") as [| | | | | |sub] eqn:Hsub;
      try apply preserved_ret.
    apply (Hrec optTable); [done|done|by apply K_extend].
  - intros option_Options.
    apply preserved_bind; [apply preserved_slog|intros _]. apply preserved_ret.
Qed.

Lemma forEachOption_preserved rec parentName es :
  K parentName →
  (∀ key optTable sub p,
      (key, LTableV optTable) ∈ es →
      RawGetString optTable "options" = LTableV sub →
      K p → preserved R (rec p sub)) →
  ∀ commandOptions,
    preserved R (Bindings.forEachOption rec parentName es commandOptions).
Proof.
  intros HK. induction es as [|[key value] es IH]; intros Hrec commandOptions.
  - apply preserved_ret.
  - rewrite forEachOption_cons. apply preserved_bind.
    + apply optionCallback_preserved; [done|].
      intros optTable sub p -> Hsub.
      apply (Hrec key optTable); [|done]. apply elem_of_cons. by left.
    + intros acc. apply IH. intros key' optTable sub p Hin.
      apply (Hrec key'). apply elem_of_cons. by right.
Qed.

Lemma parseOptions_preserved options parentName :
  K parentName → preserved R (Bindings.parseOptions parentName options).
Proof.
  remember (LTable_size options) as n eqn:Hn.
  revert options parentName Hn.
  induction n as [n IH] using lt_wf_ind. intros options parentName -> HK.
  rewrite parseOptions_unfold. apply forEachOption_preserved; [done|].
  intros key optTable sub p Hin Hsub HKp. eapply IH; [|done|done].
  pose proof (entry_size _ _ _ Hin) as Hopt.
  pose proof (RawGetString_size _ _ _ Hsub) as Hlt.
  destruct options as [es]. simpl in *. lia.
Qed.

Lemma createCommand_preserved session name appCmd :
  preserved R (Bindings.createCommand session name appCmd).
Proof.
  intros s. unfold Bindings.createCommand. run_steps.
  unfold Bindings.onWorld. run_steps.
  destruct (s_ApplicationCommandCreate _ _ _ _); apply R_emit.
Qed.

Lemma Register_preserved args s :
  (∀ command rest,
      args = LTableV command :: rest →
      K (LValue_String (RawGetString command "name"))
      ∧ W (LValue_String (RawGetString command "name"))) →
  R s (Bindings.Register args s).2.
Proof.
  intros HKW. destruct args as [|v rest].
  { rewrite Register_not_table by done. apply R_refl. }
  destruct v as [| | | | | |command];
    try (rewrite Register_not_table by done; apply R_refl).
  destruct (HKW command rest eq_refl) as [HK HW].
  destruct (rejected_dec command) as [Hrej|(Hn&Hd&Hh&Ho)].
  { destruct (Register_rejected command rest s Hrej) as [msg ->]. apply R_refl. }
  rewrite Register_checked by done.
  assert (R s (storeHandler command s)) as Hstore.
  { unfold storeHandler. destruct (is_nil _); [apply R_refl|].
    eapply R_trans;
      [apply (R_SetGlobal s (LValue_String (name_of command))
                (handler_of command) HW)|].
    apply (R_setCommand
             (s.1, SetGlobal ("handler_" +:+ LValue_String (name_of command))
                     (handler_of command) s.2)
             (LValue_String (name_of command)) _ HW). }
  assert (R (storeHandler command s)
            (parseCommandOptions command (storeHandler command s)).2) as Hparse.
  { unfold parseCommandOptions.
    destruct (options_of command); try apply R_refl.
    by apply parseOptions_preserved. }
  destruct (parseCommandOptions command (storeHandler command s))
    as [[opts|e] s2]; cbn [snd] in *; [|by eapply R_trans].
  eapply R_trans; [exact Hstore|]. eapply R_trans; [exact Hparse|].
  destruct (Bindings.Session s2.1) as [session|]; cbn [snd].
  - apply (preserved_bind _ _ (createCommand_preserved _ _ _)).
    intros _. apply preserved_slog.
  - apply R_append.
Qed.
End Preserved.

Lemma lookup_insert_is_Some_keep {V : Type} (m : gmap string V) k k' v :
  is_Some (m !! k) → is_Some (<[k' := v]> m !! k).
Proof.
  intros Hk. destruct (decide (k' = k)) as [->|Hne].
  - rewrite lookup_insert_eq. by eexists.
  - by rewrite lookup_insert_ne.
Qed.

Lemma ready_name_not_handler (t : Z) (k : string) :
  ready_name t ≠ "handler_" +:+ k.
Proof. unfold ready_name. cbv [String.append]. discriminate. Qed.

Section Writes.
Context `{Runtime}.

(** X4. A registration call, whatever its arguments and whether it
    succeeds or raises, removes no command record and no script global:
    records and globals are only added or overwritten. *)
Theorem Register_loses_nothing (args : list LValue) (s : Bindings.BState) :
  nothing_lost s (Bindings.Register args s).2.
Proof.
  apply (Register_preserved nothing_lost (λ _, True) (λ _, True)); try done.
  - intros s1 s2 s3 [Hc1 Hg1] [Hc2 Hg2]. split; auto.
  - intros s' n v _. split; [done|]. intros g Hg.
    by apply lookup_insert_is_Some_keep.
  - intros s' n name _. split; [|done]. intros k Hk.
    by apply lookup_insert_is_Some_keep.
Qed.


(** X6. No registration call touches a global that is not a handler
    global; in particular the globals of the ready callbacks are as they
    were. *)
Theorem Register_keeps_ready_callbacks (args : list LValue)
    (s : Bindings.BState) :
  other_globals_untouched s (Bindings.Register args s).2
  ∧ ∀ t, globals (Bindings.Register args s).2.2 !! ready_name t
         = globals s.2 !! ready_name t.
Proof.
  assert (other_globals_untouched s (Bindings.Register args s).2) as Hother.
  { apply (Register_preserved other_globals_untouched (λ _, True) (λ _, True));
      try done.
    - intros s1 s2 s3 H12 H23 g Hg. by rewrite H23, H12.
    - intros s' n v _ g Hg. cbn [snd SetGlobal globals].
      rewrite lookup_insert_ne; [done|]. intros <-. by apply (Hg n). }
  split; [exact Hother|]. intros t. apply Hother.
  intros k. apply ready_name_not_handler.
Qed.
End Writes.


(** ** Registration once the session is there *)

Section Bound.
Context `{Runtime}.

Lemma createCommand_run session name appCmd s :
  Bindings.createCommand session name appCmd s =
  (match s_ApplicationCommandCreate session (s_UserID session)
           (Bindings.GuildID s.1) appCmd with
   | Some err =>
       Fail (RaiseError ("failed to register command '" +:+ name
                         +:+ "' with Discord: " +:+ err))
   | None => Ret tt
   end,
   (s.1, emit (EvCreate (s_UserID session) (Bindings.GuildID s.1) appCmd) s.2)).
Proof.
  unfold Bindings.createCommand. run_steps. unfold Bindings.onWorld. run_steps.
  by destruct (s_ApplicationCommandCreate _ _ _ _).
Qed.

Lemma creates_emit_create appID guildID cmd w :
  creates (emit (EvCreate appID guildID cmd) w)
  = creates w ++ [EvCreate appID guildID cmd].
Proof. unfold creates, emit. cbn [trace]. by rewrite filter_app. Qed.

(** X7. Once the session is there, a registration call is never queued
    and leaves the session in place.  It calls the platform exactly once,
    with the identity of the session and the guild of the binding, when
    the descriptor passes every check: it returns when the platform accepts
    the command and raises a runtime error when the platform rejects it.  A
    call that fails on its arguments makes no call against the platform. *)
Theorem Register_bound (args : list LValue) (s : Bindings.BState)
    (session : DiscordSession) :
  Bindings.Session s.1 = Some session →
  Bindings.Session (Bindings.Register args s).2.1 = Some session
  ∧ Bindings.waitRegister (Bindings.Register args s).2.1
    = Bindings.waitRegister s.1
  ∧ match (Bindings.Register args s).1 with
    | Ret _ =>
        ∃ cmd, creates (Bindings.Register args s).2.2
               = creates s.2
                 ++ [EvCreate (s_UserID session) (Bindings.GuildID s.1) cmd]
               ∧ s_ApplicationCommandCreate session (s_UserID session)
                   (Bindings.GuildID s.1) cmd = None
    | Fail (RaiseError _) =>
        ∃ cmd, creates (Bindings.Register args s).2.2
               = creates s.2
                 ++ [EvCreate (s_UserID session) (Bindings.GuildID s.1) cmd]
               ∧ s_ApplicationCommandCreate session (s_UserID session)
                   (Bindings.GuildID s.1) cmd ≠ None
    | Fail _ => creates (Bindings.Register args s).2.2 = creates s.2
    end.
Proof.
  intros Hbound. destruct args as [|v rest].
  { by rewrite Register_not_table. }
  destruct v as [| | | | | |command]; try by rewrite Register_not_table.
  destruct (rejected_dec command) as [Hrej|(Hn&Hd&Hh&Ho)].
  { destruct (Register_rejected command rest s Hrej) as [msg ->]. done. }
  rewrite Register_checked by done.
  destruct (parseCommandOptions_framed command (storeHandler command s))
    as [Hf Hfail].
  pose proof (frame_trans _ _ _ (storeHandler_frame command s) Hf)
    as (HS&HG&HW&HC&_).
  destruct (parseCommandOptions command (storeHandler command s))
    as [[opts|e'] s2]; cbn [fst snd] in *.
  - rewrite HS, Hbound. run_steps. rewrite createCommand_run.
    rewrite HG.
    destruct (s_ApplicationCommandCreate session (s_UserID session)
                (Bindings.GuildID s.1) (appCmd_of command opts)) eqn:Hcreate;
      run_steps; unfold Bindings.onWorld; run_steps;
      rewrite ?creates_slog, creates_emit_create, HC, HS, HW;
      (split; [done|]); (split; [done|]);
      exists (appCmd_of command opts); by rewrite Hcreate.
  - rewrite HS, HW. destruct (Hfail e' eq_refl) as [msg ->]. done.
Qed.
End Bound.

Lemma Register_bound_witness :
  (Bindings.Register [LTableV (Sample.command (LString "late"))]
     Sample.bound).1 = Ret tt
  ∧ creates (Bindings.Register [LTableV (Sample.command (LString "late"))]
               Sample.bound).2.2
    = creates Sample.bound.2 ++ [Sample.created "late"]
  ∧ length (Bindings.waitRegister
              (Bindings.Register [LTableV (Sample.command (LString "late"))]
                 Sample.bound).2.1) = 3%nat.
Proof.
  pose proof (Register_bound [LTableV (Sample.command (LString "late"))]
                Sample.bound Sample.session eq_refl) as (_ & Hwait & Hrun).
  split; [reflexivity|]. split; [reflexivity|].
  rewrite Hwait. reflexivity.
Defined.

(** ** A command with a handler of its own *)

Section Toplevel.
Context `{Runtime}.


End Toplevel.


(** ** The options of a command *)

Lemma check_run {S : Type} (c : bool) (e : Failure) (s : S) :
  check c e s = if c then (Ret tt, s) else (Fail e, s).
Proof. by destruct c. Qed.

Section Options.
Context `{Runtime}.

Lemma optionCallback_header rec parentName acc value s acc' :
  (Bindings.optionCallback rec parentName acc value s).1 = Ret acc' →
  option_header <$> acc' =
  (option_header <$> acc) ++ option_list (declared_header value).
Proof.
  destruct value as [| | | | | |optTable];
    try (intros [= <-]; symmetry; apply app_nil_r).
  cbn [Bindings.optionCallback declared_header option_list].
  repeat (rewrite run_bind, check_run; destruct (bool_decide _); [|done]).
  rewrite run_bind.
  match goal with
  | |- context [match ?m with _ => _ end] => destruct m as [[oo|e] s']
  end; [|done].
  run_steps. intros [= <-]. by rewrite fmap_app.
Qed.

Lemma forEachOption_headers rec parentName es :
  ∀ acc s os,
    (Bindings.forEachOption rec parentName es acc s).1 = Ret os →
    option_header <$> os =
    (option_header <$> acc) ++ omap declared_header es.*2.
Proof.
  induction es as [|[key value] es IH]; intros acc s os.
  - intros [= <-]. symmetry. apply app_nil_r.
  - rewrite forEachOption_cons, run_bind.
    destruct (Bindings.optionCallback rec parentName acc value s)
      as [[acc'|e] s'] eqn:Hcb; [|done].
    intros Hrest. rewrite (IH _ _ _ Hrest).
    rewrite (optionCallback_header rec parentName acc value s acc')
      by (by rewrite Hcb).
    rewrite <- app_assoc. f_equal. cbn [fmap list_fmap omap list_omap snd].
    by destruct (declared_header value).
Qed.

(** X9. The options that [parseOptions] returns are, in the order of the
    table, the entries of the table that are tables themselves, each with
    the name, the description, the type (reduced to eight bits) and the
    truth value of [required] that its descriptor declares; entries that are
    not tables leave no trace. *)
Theorem parseOptions_headers (parentName : string) (options : LTable)
    (s : Bindings.BState) (os : list ApplicationCommandOption) :
  (Bindings.parseOptions parentName options s).1 = Ret os →
  option_header <$> os = omap declared_header (values options).
Proof.
  rewrite parseOptions_unfold. intros Hos.
  by rewrite (forEachOption_headers _ _ _ _ _ _ Hos).
Qed.

Lemma optionCallback_plain rec parentName acc value s :
  plain_option value → typed_option value →
  Bindings.optionCallback rec parentName acc value s =
  (Ret (acc ++ (leaf_option <$> option_list (declared_header value))),
   match value with
   | LTableV _ => (s.1, slog Debug "Parsed command option" s.2)
   | _ => s
   end).
Proof.
  destruct value as [| | | | | |optTable]; intros Hplain Htyped;
    try (cbn; by rewrite app_nil_r).
  destruct Htyped as (Hname & Hdesc & Htype).
  cbn [Bindings.optionCallback declared_header option_list plain_option] in *.
  rewrite !(bool_decide_eq_true_2 _ Hname), !(bool_decide_eq_true_2 _ Hdesc),
    !(bool_decide_eq_true_2 _ Htype).
  rewrite decide_False by done.
  by run_steps.
Qed.

Lemma forEachOption_plain rec parentName es :
  Forall plain_option es.*2 → Forall typed_option es.*2 →
  ∀ acc s,
    let r := Bindings.forEachOption rec parentName es acc s in
    r.1 = Ret (acc ++ (leaf_option <$> omap declared_header es.*2))
    ∧ r.2.1 = s.1 ∧ globals r.2.2 = globals s.2.
Proof.
  induction es as [|[key value] es IH]; intros Hplain Htyped acc s.
  - cbn. by rewrite app_nil_r.
  - cbn [fmap list_fmap snd] in Hplain, Htyped.
    apply Forall_cons in Hplain as [Hp Hplain].
    apply Forall_cons in Htyped as [Ht Htyped].
    rewrite forEachOption_cons. cbn zeta. rewrite run_bind.
    rewrite optionCallback_plain by done.
    destruct (IH Hplain Htyped
                (acc ++ (leaf_option <$> option_list (declared_header value)))
                (match value with
                 | LTableV _ => (s.1, slog Debug "Parsed command option" s.2)
                 | _ => s
                 end)) as (Hr & Hb & Hg).
    rewrite Hr, Hb, Hg. split; [|by destruct value].
    f_equal. rewrite <- app_assoc. f_equal.
    cbn [fmap list_fmap omap list_omap snd].
    by destruct (declared_header value).
Qed.

(** X10. An options table without an entry of the subcommand type is
    parsed into leaves: every descriptor that passes the three type checks
    gives an option with its header and no options of its own, also when it
    is a subcommand group with a handler and options; no handler is stored
    and no global is written. *)
Theorem parseOptions_plain_options (parentName : string) (options : LTable)
    (s : Bindings.BState) :
  Forall plain_option (values options) →
  Forall typed_option (values options) →
  let r := Bindings.parseOptions parentName options s in
  r.1 = Ret (leaf_option <$> omap declared_header (values options))
  ∧ r.2.1 = s.1
  ∧ globals r.2.2 = globals s.2.
Proof.
  intros Hplain Htyped. rewrite parseOptions_unfold.
  apply (forEachOption_plain _ _ _ Hplain Htyped [] s).
Qed.
End Options.

Lemma parseOptions_headers_witness :
  option_header
    <$> [mkOption "bar" "e" 1 false []]
  = omap declared_header (values (Sample.foo_options (LFunction 7))).
Proof.
  apply (parseOptions_headers "foo" (Sample.foo_options (LFunction 7))
           Sample.fresh).
  reflexivity.
Defined.

Lemma parseOptions_plain_options_witness :
  (Bindings.parseOptions "cmd" Sample.group_options Sample.fresh).1
  = Ret [mkOption "grp" "g" 2 true []; mkOption "n" "count" 4 false []]
  ∧ (Bindings.parseOptions "cmd" Sample.group_options Sample.fresh).2.1
    = Sample.fresh.1.
Proof.
  assert (Forall plain_option (values Sample.group_options)) as Hplain.
  { repeat constructor; by vm_compute. }
  assert (Forall typed_option (values Sample.group_options)) as Htyped.
  { repeat constructor. }
  destruct (parseOptions_plain_options "cmd" Sample.group_options Sample.fresh
              Hplain Htyped) as (Hr & Hb & _).
  split; [exact Hr|exact Hb].
Defined.

(** ** The handler of a subcommand *)

Lemma length_append (a b : string) :
  String.length (a +:+ b) = (String.length a + String.length b)%nat.
Proof.
  induction a as [|c a IH]; [done|].
  change (S (String.length (a +:+ b))
          = S (String.length a + String.length b)).
  by rewrite IH.
Qed.

Lemma append_inj_r (a b c : string) : a +:+ b = a +:+ c → b = c.
Proof.
  induction a as [|ch a IH]; [done|].
  change (String ch (a +:+ b) = String ch (a +:+ c) → b = c).
  intros [= Heq]. by apply IH.
Qed.

Lemma longer_key_ne (n k parent x : string) :
  (String.length k ≤ String.length n)%nat →
  (String.length n ≤ String.length parent)%nat →
  parent +:+ "_" +:+ x ≠ k.
Proof.
  intros Hk Hn <-. rewrite !length_append in Hk. cbn in Hk. lia.
Qed.

Section SubcommandHandler.
Context `{Runtime}.

(** The parsing of options under the parent name [n] writes under keys
    that are longer than [n] and nowhere else. *)
Lemma parseOptions_short_keys options n :
  preserved (short_keys_untouched n) (Bindings.parseOptions n options).
Proof.
  apply (parseOptions_preserved (short_keys_untouched n)
           (λ parent, (String.length n ≤ String.length parent)%nat)
           (λ k, (String.length n < String.length k)%nat)).
  - done.
  - intros s1 s2 s3 H12 H23 k Hk.
    destruct (H12 k Hk) as [Hc1 Hg1], (H23 k Hk) as [Hc2 Hg2].
    by rewrite Hc2, Hg2.
  - intros parent x Hp. rewrite !length_append. lia.
  - intros parent x Hp. rewrite !length_append. cbn. lia.
  - done.
  - intros s k v Hk k' Hk'. split; [done|]. cbn [snd SetGlobal globals].
    rewrite lookup_insert_ne; [done|].
    intros Heq. apply append_inj_r in Heq as ->. lia.
  - intros s k name Hk k' Hk'. split; [|done].
    cbn [fst Bindings.setCommand Bindings.Commands].
    rewrite lookup_insert_ne; [done|]. intros ->. lia.
  - done.
Qed.

Lemma subcommandOptions_short_keys key optTable :
  preserved (short_keys_untouched key) (subcommandOptions key optTable).
Proof.
  unfold subcommandOptions.
  destruct (RawGetString optTable "options") as [| | | | | |sub];
    try (intros s' k Hk; split; reflexivity).
  apply parseOptions_short_keys.
Qed.

Lemma subcommandOptions_framed key optTable :
  framed (subcommandOptions key optTable).
Proof.
  unfold subcommandOptions.
  destruct (RawGetString optTable "options"); try apply framed_ret.
  apply parseOptions_framed.
Qed.

(** The callback on a subcommand descriptor that passes its checks: the
    handler is stored before the options of the subcommand are parsed. *)
Lemma optionCallback_subcommand_run parentName acc optTable s q n h :
  RawGetString optTable "name" = LString q →
  LValue_Type (RawGetString optTable "description") = LTString →
  RawGetString optTable "type" = LNumber n →
  uint8 n = ApplicationCommandOptionSubCommand →
  RawGetString optTable "handler" = LFunction h →
  Bindings.optionCallback Bindings.parseOptions parentName acc
    (LTableV optTable) s =
  match subcommandOptions (parentName +:+ "_" +:+ q) optTable
          (Bindings.setCommand (parentName +:+ "_" +:+ q)
             ("handler_" +:+ parentName +:+ "_" +:+ q) s.1,
           SetGlobal ("handler_" +:+ parentName +:+ "_" +:+ q)
             (LFunction h) s.2) with
  | (Ret oo, s2) =>
      (Ret (acc ++ [mkOption q
                      (LValue_String (RawGetString optTable "description"))
                      ApplicationCommandOptionSubCommand
                      (LVAsBool (RawGetString optTable "required")) oo]),
       (s2.1, slog Debug "Parsed command option" s2.2))
  | (Fail e, s2) => (Fail e, s2)
  end.
Proof.
  intros Hname Hdesc Hty Hn Hh. cbn [Bindings.optionCallback].
  rewrite Hname, Hty, Hh. cbn [LValue_Type Bindings.number_of LValue_String].
  rewrite (bool_decide_eq_true_2 _ Hdesc), !bool_decide_eq_true_2 by done.
  rewrite Hn, decide_True by done.
  rewrite withTableField_unfold. unfold subcommandOptions.
  run_steps. unfold Bindings.onWorld, Bindings.onBinding. run_steps.
  cbn [check ret]. run_steps.
  destruct (RawGetString optTable "options"); by run_steps.
Qed.

(** What the registration of a command with one subcommand leaves, whether
    it returns or raises. *)
Lemma Register_subcommand_stores (command optionsTable optTable : LTable)
    (key : LValue) (rest : list LValue) (s : Bindings.BState)
    (p q : string) (n : Z) (h : FnId) :
  RawGetString command "name" = LString p →
  LValue_Type (RawGetString command "description") = LTString →
  RawGetString command "handler" = LNil
  ∨ LValue_Type (RawGetString command "handler") = LTFunction →
  RawGetString command "options" = LTableV optionsTable →
  entries optionsTable = [(key, LTableV optTable)] →
  RawGetString optTable "name" = LString q →
  LValue_Type (RawGetString optTable "description") = LTString →
  RawGetString optTable "type" = LNumber n →
  uint8 n = ApplicationCommandOptionSubCommand →
  RawGetString optTable "handler" = LFunction h →
  let r := Bindings.Register (LTableV command :: rest) s in
  Bindings.Commands r.2.1 !! (p +:+ "_" +:+ q)
  = Some ("handler_" +:+ p +:+ "_" +:+ q)
  ∧ globals r.2.2 !! ("handler_" +:+ p +:+ "_" +:+ q) = Some (LFunction h)
  ∧ Bindings.Commands r.2.1 !! p
    = Bindings.Commands (storeHandler command s).1 !! p
  ∧ globals r.2.2 !! ("handler_" +:+ p)
    = globals (storeHandler command s).2 !! ("handler_" +:+ p)
  ∧ calls r.2.2 = calls s.2
  ∧ ∀ e, r.1 = Fail e →
         (∃ msg, e = ArgError 1 msg
                 ∧ LValue_Type (RawGetString optTable "options") = LTTable)
         ∨ (∃ msg, e = RaiseError msg ∧ is_Some (Bindings.Session s.1)).
Proof.
  intros Hname Hdesc Hhandler Hopts Hentries Hsname Hsdesc Hsty Hn Hsh r.
  subst r. rewrite Register_checked;
    unfold name_of, description_of, handler_of, options_of;
    rewrite ?Hname, ?Hopts; auto.
  pose proof (storeHandler_frame command s) as (HS0 & _ & _ & _ & Hc0).
  revert HS0 Hc0. generalize (storeHandler command s). intros s0 HS0 Hc0.
  unfold parseCommandOptions, options_of, name_of, appCmd_of.
  rewrite Hopts, Hname. cbn [LValue_String].
  rewrite parseOptions_unfold, Hentries, forEachOption_cons, run_bind.
  rewrite (optionCallback_subcommand_run _ _ _ _ q n h) by done.
  set (s1 := (Bindings.setCommand (p +:+ "_" +:+ q)
                ("handler_" +:+ p +:+ "_" +:+ q) s0.1,
              SetGlobal ("handler_" +:+ p +:+ "_" +:+ q) (LFunction h) s0.2)).
  pose proof (subcommandOptions_short_keys (p +:+ "_" +:+ q) optTable s1)
    as Hshort.
  destruct (subcommandOptions_framed (p +:+ "_" +:+ q) optTable s1)
    as [(HS2 & _ & _ & _ & Hc2) Hfail].
  assert (Bindings.Commands s1.1 !! (p +:+ "_" +:+ q)
          = Some ("handler_" +:+ p +:+ "_" +:+ q)) as Hk1.
  { apply lookup_insert_eq. }
  assert (globals s1.2 !! ("handler_" +:+ p +:+ "_" +:+ q)
          = Some (LFunction h)) as Hg1.
  { apply lookup_insert_eq. }
  assert (Bindings.Commands s1.1 !! p = Bindings.Commands s0.1 !! p) as Hp1.
  { apply lookup_insert_ne. intros Heq.
    apply (f_equal String.length) in Heq. rewrite !length_append in Heq.
    cbn in Heq. lia. }
  assert (globals s1.2 !! ("handler_" +:+ p) = globals s0.2 !! ("handler_" +:+ p))
    as Hgp1.
  { apply lookup_insert_ne. intros Heq. apply append_inj_r in Heq.
    apply (f_equal String.length) in Heq. rewrite !length_append in Heq.
    cbn in Heq. lia. }
  assert (calls s1.2 = calls s.2) as Hc1 by exact Hc0.
  assert (Bindings.Session s1.1 = Bindings.Session s.1) as HS1 by exact HS0.
  destruct (Hshort (p +:+ "_" +:+ q) ltac:(lia)) as [Hk2 Hg2].
  destruct (Hshort p) as [Hp2 Hgp2].
  { rewrite !length_append. lia. }
  assert (∀ e, (subcommandOptions (p +:+ "_" +:+ q) optTable s1).1 = Fail e →
               LValue_Type (RawGetString optTable "options") = LTTable)
    as Htable.
  { unfold subcommandOptions.
    by destruct (RawGetString optTable "options"). }
  clearbody s1.
  destruct (subcommandOptions (p +:+ "_" +:+ q) optTable s1) as [[oo|e] s2].
  - cbn [fst snd] in *. cbn [Bindings.forEachOption ret fst snd].
    rewrite HS2, HS1.
    destruct (Bindings.Session s.1) as [session|] eqn:Hsession.
    + run_steps. rewrite createCommand_run.
      destruct (s_ApplicationCommandCreate _ _ _ _) as [err|]; run_steps;
        unfold Bindings.onWorld; run_steps;
        rewrite ?calls_slog; unfold calls in *; unfold slog, emit;
        cbn [trace globals fst snd];
        rewrite ?filter_app; cbn; rewrite ?app_nil_r;
        rewrite Hk2, Hg2, Hp2, Hgp2, Hk1, Hg1, Hp1, Hgp1, Hc2, Hc1;
        repeat split; try done.
      intros e [= <-]. right. eauto.
    + cbn [fst snd Bindings.appendWaitRegister Bindings.Commands].
      rewrite calls_slog. cbn [globals slog emit].
      rewrite Hk2, Hg2, Hp2, Hgp2, Hk1, Hg1, Hp1, Hgp1, Hc2, Hc1.
      repeat split; done.
  - cbn [fst snd] in *.
    rewrite Hk2, Hg2, Hp2, Hgp2, Hk1, Hg1, Hp1, Hgp1, Hc2, Hc1.
    repeat split; try done.
    intros e' [= <-]. left. destruct (Hfail e eq_refl) as [msg ->].
    exists msg. split; [done|]. by apply (Htable (ArgError 1 msg)).
Qed.
End SubcommandHandler.

Section CombinedKey.
Context `{Runtime}.

(** C4, as the code has it.  A script registers the command "foo" with one
    subcommand option "bar" that carries the handler [h]; the subcommand
    may have options of its own, the command may have a handler of its own,
    and the binding may hold other commands and a session.  Whether the
    call returns or raises, the handler [h] is stored under the combined
    key "foo_bar", and an event that names "foo" with "bar" as first
    option, of subcommand type, calls [h], once, with the interaction
    table.  The call makes no entry under the bare key "foo" when the
    descriptor of "foo" has no handler: the bare key is as it was before.
    When the descriptor has a handler of its own, that handler is stored
    under the bare key, next to the combined key.  The call raises only an
    argument error in the options of the subcommand or the refusal of the
    platform. *)
Theorem subcommand_handler_under_combined_key
    (command optionsTable optTable : LTable) (key : LValue)
    (rest : list LValue) (s : Bindings.BState) (h : FnId) :
  RawGetString command "name" = LString "foo" →
  LValue_Type (RawGetString command "description") = LTString →
  RawGetString command "handler" = LNil
  ∨ LValue_Type (RawGetString command "handler") = LTFunction →
  RawGetString command "options" = LTableV optionsTable →
  entries optionsTable = [(key, LTableV optTable)] →
  RawGetString optTable "name" = LString "bar" →
  LValue_Type (RawGetString optTable "description") = LTString →
  RawGetString optTable "type" = LNumber 1 →
  RawGetString optTable "handler" = LFunction h →
  let r := Bindings.Register (LTableV command :: rest) s in
  Bindings.Commands r.2.1 !! "foo_bar" = Some "handler_foo_bar"
  ∧ GetGlobal "handler_foo_bar" r.2.2 = LFunction h
  ∧ (RawGetString command "handler" = LNil →
     Bindings.Commands r.2.1 !! "foo" = Bindings.Commands s.1 !! "foo")
  ∧ (RawGetString command "handler" ≠ LNil →
     Bindings.Commands r.2.1 !! "foo" = Some "handler_foo"
     ∧ GetGlobal "handler_foo" r.2.2 = RawGetString command "handler")
  ∧ (∀ e, r.1 = Fail e →
          (∃ msg, e = ArgError 1 msg
                  ∧ LValue_Type (RawGetString optTable "options") = LTTable)
          ∨ (∃ msg, e = RaiseError msg ∧ is_Some (Bindings.Session s.1)))
  ∧ ∀ i o rest' T,
      i_Type i = InteractionApplicationCommand →
      data_Name (i_Data i) = "foo" →
      elements (data_Options (i_Data i)) = o :: rest' →
      do_Type o = ApplicationCommandOptionSubCommand →
      do_Name o = "bar" →
      Bindings.prepareInteractionTable r.2.1 i = Ret T →
      (Bindings.HandleInteraction r.2.1 i r.2.2).1 = Ret None
      ∧ calls (Bindings.HandleInteraction r.2.1 i r.2.2).2
        = calls s.2 ++ [EvCall h [LTableV T]].
Proof.
  intros Hname Hdesc Hhandler Hopts Hentries Hsname Hsdesc Hsty Hsh r.
  destruct (Register_subcommand_stores command optionsTable optTable key rest
              s "foo" "bar" 1 h Hname Hdesc Hhandler Hopts Hentries Hsname
              Hsdesc Hsty eq_refl Hsh)
    as (Hkey & Hglob & Hbare & Hgbare & Hcalls & Hfail).
  fold r in Hkey, Hglob, Hbare, Hgbare, Hcalls, Hfail.
  change ("foo" +:+ "_" +:+ "bar") with "foo_bar" in Hkey.
  change ("handler_" +:+ "foo" +:+ "_" +:+ "bar") with "handler_foo_bar"
    in Hkey, Hglob.
  change ("handler_" +:+ "foo") with "handler_foo" in Hgbare.
  split; [exact Hkey|]. split; [unfold GetGlobal; by rewrite Hglob|].
  split.
  { intros Hnil. rewrite Hbare. unfold storeHandler, handler_of.
    by rewrite Hnil. }
  split.
  { intros Hsome. unfold GetGlobal. rewrite Hbare, Hgbare.
    unfold storeHandler, handler_of, name_of. rewrite Hname.
    destruct (is_nil (RawGetString command "handler")) eqn:Hn.
    - by apply is_nil_true in Hn.
    - cbn [fst snd Bindings.setCommand Bindings.Commands SetGlobal globals
             LValue_String].
      change ("handler_" +:+ "foo") with "handler_foo".
      by rewrite !lookup_insert_eq. }
  split; [exact Hfail|].
  intros i o rest' T Hty Hdname Hdopts Ho Honame HT.
  assert (Bindings.commandKey (i_Data i) = "foo_bar") as Hk.
  { unfold Bindings.commandKey. rewrite Hdname, Hdopts.
    cbn [Bindings.subcommandSuffix]. rewrite decide_True by done.
    by rewrite Honame. }
  rewrite (HandleInteraction_registered _ _ _ "handler_foo_bar") by
    (by rewrite ?Hk).
  split; [done|]. cbn [snd].
  rewrite (handlerTask_called _ _ _ _ h T); [| |done].
  - cbn [globals slog emit trace].
    destruct (script_call h [LTableV T] _) as [[err|] g];
      rewrite calls_slog; unfold calls in *; cbn [trace];
      rewrite !filter_app, Hcalls; cbn; by rewrite !app_nil_r.
  - unfold GetGlobal. cbn [globals slog emit]. by rewrite Hglob.
Qed.
End CombinedKey.

Lemma subcommand_handler_under_combined_key_witness :
  let r := Bindings.Register
             [LTableV (Sample.foo_bar_b_command (LFunction 7))]
             Sample.bound in
  r.1 = Ret tt
  ∧ Bindings.Commands r.2.1 !! "foo_bar" = Some "handler_foo_bar"
  ∧ Bindings.Commands r.2.1 !! "foo" = None
  ∧ calls (Bindings.HandleInteraction r.2.1 Sample.foo_bar r.2.2).2
    = [EvCall 7
         [LTableV (mkTable [(LString "id", LString "1");
                            (LString "options",
                             LTableV (mkTable [(LString "b", LString "y")]))])]].
Proof.
  pose proof (subcommand_handler_under_combined_key
                (Sample.foo_bar_b_command (LFunction 7))
                (mkTable [(LNumber 1,
                           LTableV (Sample.bar_with_option (LFunction 7)))])
                (Sample.bar_with_option (LFunction 7)) (LNumber 1) []
                Sample.bound 7 eq_refl eq_refl (or_introl eq_refl) eq_refl
                eq_refl eq_refl eq_refl eq_refl eq_refl)
    as (Hkey & _ & Hbare & _ & _ & Hdispatch).
  intros r. subst r. split; [reflexivity|]. split; [exact Hkey|].
  split; [rewrite (Hbare eq_refl); reflexivity|].
  refine (proj2 (Hdispatch Sample.foo_bar
           (Sample.sub_option "bar" (slice [Sample.str_option "b" "y"])) []
           (mkTable [(LString "id", LString "1");
                     (LString "options",
                      LTableV (mkTable [(LString "b", LString "y")]))])
           eq_refl eq_refl eq_refl eq_refl eq_refl _)).
  by vm_compute.
Defined.

(** ** Subcommands and commands share the keys *)

Section SharedKeys.
Context `{Runtime}.

(** X11. The handler of the subcommand [q] of the command [p] is stored
    under the key [p_q] and the global [handler_p_q], whatever was stored
    there before, whatever options the subcommand has of its own, and
    whether the registration returns or raises.  Every event whose key
    is [p_q] calls it from then on: the event that names [p] with the
    subcommand [q], and also an event that names a command [p_q] of its
    own, whose handler the registration has replaced. *)
Theorem subcommand_takes_over_key (command optionsTable optTable : LTable)
    (key : LValue) (rest : list LValue) (s : Bindings.BState)
    (p q : string) (n : Z) (h : FnId) :
  RawGetString command "name" = LString p →
  LValue_Type (RawGetString command "description") = LTString →
  RawGetString command "handler" = LNil
  ∨ LValue_Type (RawGetString command "handler") = LTFunction →
  RawGetString command "options" = LTableV optionsTable →
  entries optionsTable = [(key, LTableV optTable)] →
  RawGetString optTable "name" = LString q →
  LValue_Type (RawGetString optTable "description") = LTString →
  RawGetString optTable "type" = LNumber n →
  uint8 n = ApplicationCommandOptionSubCommand →
  RawGetString optTable "handler" = LFunction h →
  let r := Bindings.Register (LTableV command :: rest) s in
  Bindings.Commands r.2.1 !! (p +:+ "_" +:+ q)
  = Some ("handler_" +:+ p +:+ "_" +:+ q)
  ∧ GetGlobal ("handler_" +:+ p +:+ "_" +:+ q) r.2.2 = LFunction h
  ∧ ∀ i T,
      i_Type i = InteractionApplicationCommand →
      Bindings.commandKey (i_Data i) = p +:+ "_" +:+ q →
      Bindings.prepareInteractionTable r.2.1 i = Ret T →
      (Bindings.HandleInteraction r.2.1 i r.2.2).1 = Ret None
      ∧ calls (Bindings.HandleInteraction r.2.1 i r.2.2).2
        = calls s.2 ++ [EvCall h [LTableV T]].
Proof.
  intros Hname Hdesc Hhandler Hopts Hentries Hsname Hsdesc Hsty Hn Hsh r.
  destruct (Register_subcommand_stores command optionsTable optTable key rest
              s p q n h Hname Hdesc Hhandler Hopts Hentries Hsname Hsdesc
              Hsty Hn Hsh)
    as (Hcmd & Hglob & _ & _ & Hcalls & _).
  fold r in Hcmd, Hglob, Hcalls.
  split; [done|]. split; [unfold GetGlobal; by rewrite Hglob|].
  intros i T Hty Hkey HT.
  rewrite (HandleInteraction_registered _ _ _
             ("handler_" +:+ p +:+ "_" +:+ q)) by (by rewrite ?Hkey).
  split; [done|]. cbn [snd].
  rewrite (handlerTask_called _ _ _ _ h T); [| |done].
  - cbn [globals slog emit trace].
    destruct (script_call h [LTableV T] _) as [[err|] g];
      rewrite calls_slog; unfold calls in *; cbn [trace];
      rewrite !filter_app, Hcalls; cbn; by rewrite !app_nil_r.
  - unfold GetGlobal. cbn [globals slog emit]. by rewrite Hglob.
Qed.
End SharedKeys.

Lemma subcommand_takes_over_key_witness :
  let s1 := (Bindings.Register [LTableV (Sample.foo_bar_command (LFunction 4))]
               Sample.fresh).2 in
  let r := Bindings.Register
             [LTableV (Sample.foo_bar_b_command (LFunction 7))] s1 in
  GetGlobal "handler_foo_bar" s1.2 = LFunction 4
  ∧ calls (Bindings.HandleInteraction r.2.1 Sample.foo_bar_flat r.2.2).2
    = [EvCall 7
         [LTableV (mkTable [(LString "id", LString "3");
                            (LString "options", LTableV (mkTable []))])]].
Proof.
  intros s1 r. split; [reflexivity|].
  refine (proj2 (proj2 (proj2 (subcommand_takes_over_key
                         (Sample.foo_bar_b_command (LFunction 7))
                         (mkTable [(LNumber 1,
                                    LTableV (Sample.bar_with_option
                                               (LFunction 7)))])
                         (Sample.bar_with_option (LFunction 7)) (LNumber 1)
                         [] s1 "foo" "bar" 1 7
                         eq_refl eq_refl (or_introl eq_refl) eq_refl eq_refl
                         eq_refl eq_refl eq_refl eq_refl eq_refl))
           Sample.foo_bar_flat
           (mkTable [(LString "id", LString "3");
                     (LString "options", LTableV (mkTable []))])
           eq_refl eq_refl _)).
  by vm_compute.
Defined.

(** ** A pending registration that the platform refuses *)

Lemma forRange_app {S A : Type} (body : A → M S unit) (l1 l2 : list A) (s : S) :
  forRange body (l1 ++ l2) s =
  match forRange body l1 s with
  | (Ret _, s') => forRange body l2 s'
  | (Fail e, s') => (Fail e, s')
  end.
Proof.
  revert s. induction l1 as [|a l1 IH]; intros s; [done|].
  cbn [app forRange]. rewrite !run_bind.
  destruct (body a s) as [[[]|e] s']; [apply IH|done].
Qed.

Section Refused.
Context `{Runtime}.

Lemma SetSession_refused session b w
    (pre post : list Bindings.DeferredRegistration) d err :
  Bindings.waitRegister b = pre ++ d :: post →
  Forall (accepted session (Bindings.GuildID b)) pre →
  refused session (Bindings.GuildID b) d err →
  Bindings.SetSession session (b, w) =
  (Fail (RaiseError ("failed to register command '"
                     +:+ LValue_String (Bindings.dr_name d)
                     +:+ "' with Discord: " +:+ err)),
   (Bindings.setSessionField session b,
    mkWorld (globals w)
      (trace w
         ++ EvLog Info "Setting session for ApplicationCommandBinding"
         :: (replayed session (Bindings.GuildID b) <$> pre ++ [d])))).
Proof.
  intros Hwait Hpre Hd.
  unfold Bindings.SetSession, Bindings.onWorld, Bindings.onBinding.
  run_steps. cbn [Bindings.setSessionField Bindings.waitRegister].
  rewrite Hwait, forRange_app.
  rewrite forRange_callDeferred by done.
  cbn [forRange]. rewrite run_bind.
  unfold Bindings.callDeferred. rewrite createCommand_run.
  cbn [fst snd Bindings.GuildID Bindings.setSessionField].
  unfold refused in Hd. rewrite Hd.
  unfold slog, emit. cbn [globals trace].
  by rewrite fmap_app, <- !app_assoc.
Qed.

(** X12. When the platform refuses one of the pending registrations,
    [SetSession] raises the error of that registration: the registrations
    before it have been replayed, the ones after it are not, and the
    binding keeps the session and its pending list all the same. *)
Theorem SetSession_stops_at_refusal (session : DiscordSession)
    (s : Bindings.BState) (pre post : list Bindings.DeferredRegistration)
    (d : Bindings.DeferredRegistration) (err : string) :
  Bindings.waitRegister s.1 = pre ++ d :: post →
  Forall (accepted session (Bindings.GuildID s.1)) pre →
  refused session (Bindings.GuildID s.1) d err →
  let r := Bindings.SetSession session s in
  r.1 = Fail (RaiseError ("failed to register command '"
                          +:+ LValue_String (Bindings.dr_name d)
                          +:+ "' with Discord: " +:+ err))
  ∧ creates r.2.2
    = creates s.2 ++ (replayed session (Bindings.GuildID s.1) <$> pre ++ [d])
  ∧ r.2.1 = Bindings.setSessionField session s.1
  ∧ globals r.2.2 = globals s.2.
Proof.
  intros Hwait Hpre Hd. destruct s as [b w]. cbn [fst snd] in *.
  rewrite (SetSession_refused session b w pre post d err) by done.
  cbn [fst snd globals]. split; [done|]. split; [|done].
  unfold creates. cbn [trace]. rewrite filter_app, filter_cons.
  rewrite decide_False by (simpl; exact id).
  by rewrite creates_replayed.
Qed.
End Refused.

Lemma SetSession_stops_at_refusal_witness :
  let r := Bindings.SetSession Sample.picky_session Sample.queued in
  creates r.2.2 = [Sample.created "first"; Sample.created "second"]
  ∧ Bindings.Session r.2.1 = Some Sample.picky_session
  ∧ length (Bindings.waitRegister r.2.1) = 3%nat.
Proof.
  pose proof (SetSession_stops_at_refusal Sample.picky_session Sample.queued
                [Bindings.mkDeferred (mkCommand "first" "d" [])
                   (LString "first")]
                [Bindings.mkDeferred (mkCommand "third" "d" [])
                   (LString "third")]
                (Bindings.mkDeferred (mkCommand "second" "d" [])
                   (LString "second"))
                "rejected" eq_refl ltac:(repeat constructor) eq_refl)
    as (_ & Hcreates & Hb & _).
  intros r. subst r. rewrite Hcreates, Hb. repeat split.
Defined.

(** ** The options table of an event *)

Section EventOptions.
Context `{Runtime}.

Lemma buildOptionsTable_flat_lookup_from (opts : list DataOption) :
  Forall (λ o, do_Type o ≠ ApplicationCommandOptionSubCommand) opts →
  ∀ T R k,
    Bindings.buildOptionsTable (Some T) (slice opts) = Ret R →
    Ret (RawGetString R k) =
    match last (filter (λ o, do_Name o = k) opts) with
    | Some o => Bindings.optionValue o
    | None => Ret (RawGetString T k)
    end.
Proof.
  induction 1 as [|o opts Ho _ IH]; intros T R k.
  - simpl. by intros [= <-].
  - rewrite buildOptionsTable_cons, decide_False by done.
    destruct (Bindings.optionValue o) as [v|e] eqn:Hv;
      rewrite ?obind_ret, ?obind_fail; [|done].
    intros HR. rewrite (IH _ _ k HR). rewrite filter_cons.
    destruct (decide (do_Name o = k)) as [<-|Hne].
    + rewrite last_cons.
      destruct (last (filter _ opts)); [done|].
      by rewrite RawGetString_RawSetString_eq.
    + destruct (last (filter _ opts)); [done|].
      by rewrite RawGetString_RawSetString_ne.
Qed.

(** X13. Without a subcommand among the options of an event, the table
    that [buildOptionsTable] returns holds under every key the value of the
    last option of that name, and what the table held before under the keys
    that no option has. *)
Theorem buildOptionsTable_flat_lookup (T : option LTable)
    (opts : list DataOption) (R : LTable) (k : string) :
  Forall (λ o, do_Type o ≠ ApplicationCommandOptionSubCommand) opts →
  Bindings.buildOptionsTable T (slice opts) = Ret R →
  Ret (RawGetString R k) =
  match last (filter (λ o, do_Name o = k) opts) with
  | Some o => Bindings.optionValue o
  | None => Ret (RawGetString (default (mkTable []) T) k)
  end.
Proof.
  intros Hflat. rewrite buildOptionsTable_None.
  by apply buildOptionsTable_flat_lookup_from.
Qed.

Lemma optionValue_mistyped o :
  mistyped o → ∃ msg, Bindings.optionValue o = Fail (Panic msg).
Proof.
  unfold Bindings.optionValue, Bindings.IntValue, Bindings.BoolValue,
    Bindings.StringValue, Bindings.FloatValue.
  intros [[[Hty|Hty] Hv]|[[Hty Hv]|[Hty Hv]]]; rewrite Hty;
    repeat (rewrite decide_True by done);
    repeat (rewrite decide_False by done);
    repeat (rewrite decide_True by done);
    destruct (do_Value o) eqn:Hval; cbn; try by eexists.
  all: by edestruct Hv.
Qed.

Lemma optionValue_fail o e :
  Bindings.optionValue o = Fail e → ∃ msg, e = Panic msg.
Proof.
  unfold Bindings.optionValue, Bindings.IntValue, Bindings.BoolValue,
    Bindings.StringValue, Bindings.FloatValue.
  repeat case_decide; try congruence; try done;
    destruct (do_Value o); cbn; intros [= <-]; by eexists.
Qed.

Lemma mistyped_not_subcommand o :
  mistyped o → do_Type o ≠ ApplicationCommandOptionSubCommand.
Proof. by intros [[[Hty|Hty] _]|[[Hty _]|[Hty _]]]; rewrite Hty. Qed.

Lemma buildOptionsTable_mistyped pre o post :
  Forall (λ p, descends p = false) pre →
  mistyped o →
  ∀ T, ∃ msg,
    Bindings.buildOptionsTable (Some T) (slice (pre ++ o :: post))
    = Fail (Panic msg).
Proof.
  intros Hpre Ho. induction Hpre as [|p pre Hp _ IH]; intros T.
  - rewrite app_nil_l, buildOptionsTable_cons.
    rewrite decide_False by by apply mistyped_not_subcommand.
    destruct (optionValue_mistyped o Ho) as [msg ->]. by exists msg.
  - rewrite <- app_comm_cons, buildOptionsTable_cons.
    unfold descends in Hp.
    destruct (decide (do_Type p = _)) as [Hty|Hty].
    + rewrite bool_decide_eq_true_2 in Hp by done. simpl in Hp.
      apply negb_false_iff in Hp. rewrite Hp. apply IH.
    + destruct (Bindings.optionValue p) as [v|e] eqn:Hv;
        rewrite ?obind_ret, ?obind_fail; [apply IH|].
      destruct (optionValue_fail p e Hv) as [msg ->]. by exists msg.
Qed.

(** X14. When an option of an event, reached before the traversal
    descends into a subcommand, carries a value that does not have the
    type its option type announces, the typed accessor panics while the
    options table is built: the task of [HandleInteraction] ends there, and
    the handler of the command is not called. *)
Theorem mistyped_option_stops_handler (b : Bindings.ApplicationCommandBinding)
    (i : InteractionCreate) (globalName : string) (w : World) (f : FnId)
    (pre post : list DataOption) (o : DataOption) :
  i_Type i = InteractionApplicationCommand →
  data_Options (i_Data i) = slice (pre ++ o :: post) →
  Forall (λ p, descends p = false) pre →
  mistyped o →
  GetGlobal globalName w = LFunction f →
  let r := Bindings.handlerTask b i globalName w in
  (∃ msg, r.1 = Fail (Panic msg)) ∧ calls r.2 = calls w.
Proof.
  intros Hty Hopts Hpre Ho Hfn.
  destruct (buildOptionsTable_mistyped pre o post Hpre Ho (mkTable []))
    as [msg Hbuild].
  assert (Bindings.prepareInteractionTable b i = Fail (Panic msg)) as HT.
  { unfold Bindings.prepareInteractionTable, Bindings.ApplicationCommandData.
    rewrite decide_True by done. rewrite obind_ret, Hopts.
    rewrite buildOptionsTable_None. cbn [default]. by rewrite Hbuild. }
  unfold Bindings.handlerTask. cbn zeta. run_steps.
  replace (GetGlobal globalName (slog Debug "Executing Lua handler" w))
    with (LFunction f) by done.
  cbn [is_nil]. rewrite HT. run_steps.
  split; [by exists msg|apply calls_slog].
Qed.
End EventOptions.

Lemma buildOptionsTable_flat_lookup_witness :
  Ret (RawGetString
         (mkTable [(LString "a", LString "z"); (LString "b", LString "y")])
         "a")
  = Bindings.optionValue (Sample.str_option "a" "z").
Proof.
  apply (buildOptionsTable_flat_lookup None Sample.a_b_a
           (mkTable [(LString "a", LString "z"); (LString "b", LString "y")])
           "a").
  - repeat constructor; discriminate.
  - reflexivity.
Defined.

Lemma mistyped_option_stops_handler_witness :
  let s := (Bindings.Register [LTableV (Sample.ping_command (LFunction 9))]
              Sample.fresh).2 in
  calls (Bindings.handlerTask s.1 Sample.bad_count "handler_ping" s.2).2 = [].
Proof.
  intros s.
  refine (proj2 (mistyped_option_stops_handler s.1 Sample.bad_count
                   "handler_ping" s.2 9 [Sample.str_option "a" "x"] []
                   (mkDataOption "n" ApplicationCommandOptionInteger
                      (GString "three") nilSlice)
                   eq_refl eq_refl _ _ eq_refl)).
  - repeat constructor.
  - left. split; [by left|]. intros n. discriminate.
Defined.

(** ** The manager and its bindings *)

Section ManagerSession.
Context `{Runtime}.

Lemma calls_replayed session guildID (l : list Bindings.DeferredRegistration) :
  filter is_call (replayed session guildID <$> l) = [].
Proof.
  induction l as [|d l IH]; [done|].
  cbn [fmap list_fmap]. rewrite filter_cons, decide_False by (simpl; exact id).
  apply IH.
Qed.

Lemma LuaBinding_SetSession_settles session lb w :
  settles session lb →
  ∃ w', Manager.LuaBinding_SetSession lb session w
        = (Ret tt, (with_session session lb, w'))
        ∧ globals w' = globals w
        ∧ calls w' = calls w
        ∧ creates w' = creates w ++ replays session lb.
Proof.
  destruct lb as [b|o]; cbn [settles Manager.LuaBinding_SetSession
                               with_session replays].
  - intros Hok. rewrite (SetSession_replays session (b, w)) by done.
    cbn [fst snd]. eexists. split; [reflexivity|]. cbn [globals].
    split; [done|]. unfold calls, creates. cbn [trace].
    rewrite !filter_app, !filter_cons.
    rewrite !decide_False by (simpl; exact id).
    rewrite creates_replayed, calls_replayed. by rewrite app_nil_r.
  - intros Hok. destruct (Hok w) as (Hr & Hg & Hc & Hcr).
    destruct (Manager.ob_SetSession o session w) as [r w'].
    cbn [fst snd] in *. subst r. exists w'. by rewrite app_nil_r.
Qed.

Lemma setSessionGroup_settles session (group : list Manager.LuaBinding) :
  Forall (settles session) group →
  ∀ w, ∃ w',
    Manager.setSessionGroup session group w
    = (Ret tt, (with_session session <$> group, w'))
    ∧ globals w' = globals w
    ∧ calls w' = calls w
    ∧ creates w' = creates w ++ concat (replays session <$> group).
Proof.
  induction 1 as [|lb group Hlb _ IH]; intros w.
  - exists w. cbn. by rewrite app_nil_r.
  - cbn [Manager.setSessionGroup].
    destruct (LuaBinding_SetSession_settles session lb w Hlb)
      as (w1 & -> & Hg1 & Hc1 & Hcr1).
    destruct (IH w1) as (w2 & -> & Hg2 & Hc2 & Hcr2).
    exists w2. split; [done|].
    rewrite Hg2, Hc2, Hcr2, Hg1, Hc1, Hcr1. cbn [fmap list_fmap concat].
    by rewrite <- app_assoc.
Qed.



Lemma setSessionGroup_refused session pre b post p d q err :
  Forall (settles session) pre →
  Bindings.waitRegister b = p ++ d :: q →
  Forall (accepted session (Bindings.GuildID b)) p →
  refused session (Bindings.GuildID b) d err →
  ∀ w, ∃ group' w',
    Manager.setSessionGroup session (pre ++ Manager.AppCommand b :: post) w
    = (Fail (RaiseError ("failed to register command '"
                         +:+ LValue_String (Bindings.dr_name d)
                         +:+ "' with Discord: " +:+ err)),
       (group', w'))
    ∧ calls w' = calls w.
Proof.
  intros Hpre Hwait Hp Hd. induction Hpre as [|lb pre Hlb _ IH]; intros w.
  - cbn [app Manager.setSessionGroup Manager.LuaBinding_SetSession].
    rewrite (SetSession_refused session b w p q d err) by done.
    do 2 eexists. split; [reflexivity|].
    unfold calls. cbn [trace]. rewrite filter_app, filter_cons.
    rewrite decide_False by (simpl; exact id).
    by rewrite calls_replayed, app_nil_r.
  - cbn [app Manager.setSessionGroup].
    destruct (LuaBinding_SetSession_settles session lb w Hlb)
      as (w1 & -> & _ & Hc1 & _).
    destruct (IH w1) as (group' & w' & -> & Hc).
    do 2 eexists. split; [reflexivity|]. by rewrite Hc.
Qed.

Lemma setSessionGroups_refused session gpre name pre b post gpost p d q err :
  Forall (λ g, Forall (settles session) g.2) gpre →
  Forall (settles session) pre →
  Bindings.waitRegister b = p ++ d :: q →
  Forall (accepted session (Bindings.GuildID b)) p →
  refused session (Bindings.GuildID b) d err →
  ∀ w, ∃ groups' w',
    Manager.setSessionGroups session
      (gpre ++ (name, pre ++ Manager.AppCommand b :: post) :: gpost) w
    = (Fail (RaiseError ("failed to register command '"
                         +:+ LValue_String (Bindings.dr_name d)
                         +:+ "' with Discord: " +:+ err)),
       (groups', w'))
    ∧ calls w' = calls w.
Proof.
  intros Hgpre Hpre Hwait Hp Hd.
  induction Hgpre as [|[gname g] gpre Hg _ IH]; intros w.
  - cbn [app Manager.setSessionGroups].
    destruct (setSessionGroup_refused session pre b post p d q err
                Hpre Hwait Hp Hd w) as (group' & w' & -> & Hc).
    by do 2 eexists.
  - cbn [app Manager.setSessionGroups].
    destruct (setSessionGroup_settles session g Hg w)
      as (w1 & -> & _ & Hc1 & _).
    destruct (IH w1) as (groups' & w' & -> & Hc).
    do 2 eexists. split; [reflexivity|]. by rewrite Hc.
Qed.

(** X16. When the platform refuses a pending command of one of the
    bindings, and the bindings visited before it take the session without
    raising, the error of that registration leaves [ReadyHandler]: no
    ready callback is invoked, and the list of the callbacks is kept. *)
Theorem ReadyHandler_stops_at_refusal (session : DiscordSession)
    (s : Manager.MState) (gpre gpost : list (string * list Manager.LuaBinding))
    (name : string) (pre post : list Manager.LuaBinding)
    (b : Bindings.ApplicationCommandBinding)
    (p q : list Bindings.DeferredRegistration)
    (d : Bindings.DeferredRegistration) (err : string) :
  Manager.Bindings s.1
  = gpre ++ (name, pre ++ Manager.AppCommand b :: post) :: gpost →
  Forall (λ g, Forall (settles session) g.2) gpre →
  Forall (settles session) pre →
  Bindings.waitRegister b = p ++ d :: q →
  Forall (accepted session (Bindings.GuildID b)) p →
  refused session (Bindings.GuildID b) d err →
  let r := Manager.ReadyHandler session s in
  r.1 = Fail (RaiseError ("failed to register command '"
                          +:+ LValue_String (Bindings.dr_name d)
                          +:+ "' with Discord: " +:+ err))
  ∧ calls r.2.2 = calls s.2
  ∧ Manager.OnReadyCbs r.2.1 = Manager.OnReadyCbs s.1.
Proof.
  intros Hb Hgpre Hpre Hwait Hp Hd.
  destruct (setSessionGroups_refused session gpre name pre b post gpost
              p d q err Hgpre Hpre Hwait Hp Hd
              (slog Info "Handling ready event" s.2))
    as (groups' & w' & Hrun & Hc).
  assert (Manager.ReadyHandler session s =
          (Fail (RaiseError ("failed to register command '"
                             +:+ LValue_String (Bindings.dr_name d)
                             +:+ "' with Discord: " +:+ err)),
           (Manager.mkManager groups' (Manager.OnReadyCbs s.1), w'))) as ->.
  { unfold Manager.ReadyHandler. run_steps.
    unfold Manager.onWorld at 1. run_steps.
    unfold Manager.setSession. cbn [fst snd]. by rewrite Hb, Hrun. }
  cbn [fst snd Manager.OnReadyCbs]. by rewrite Hc, calls_slog.
Qed.
End ManagerSession.


Lemma ReadyHandler_stops_at_refusal_witness :
  let s := register_ready [(1, 100%Z)]
             (Sample.manager Sample.queued.1, Sample.w0) in
  calls (Manager.ReadyHandler Sample.picky_session s).2.2 = [].
Proof.
  intros s.
  refine (proj1 (proj2 (ReadyHandler_stops_at_refusal Sample.picky_session s
                   [] [] "default" [] [Manager.Other Sample.silent]
                   Sample.queued.1
                   [Bindings.mkDeferred (mkCommand "first" "d" [])
                      (LString "first")]
                   [Bindings.mkDeferred (mkCommand "third" "d" [])
                      (LString "third")]
                   (Bindings.mkDeferred (mkCommand "second" "d" [])
                      (LString "second"))
                   "rejected" eq_refl _ _ eq_refl _ eq_refl))).
  - constructor.
  - constructor.
  - repeat constructor.
Defined.

(** ** The dispatcher *)

Section Dispatcher.
Context `{Runtime}.

(** X17. An interaction that is no application command never reaches
    [HandleInteraction] of a command binding, where reading its command
    data would panic: when no binding of another kind claims it,
    [HandleCommand] logs that no binding was found and returns. *)
Theorem HandleCommand_other_interaction (m : Manager.LuaManager)
    (i : InteractionCreate) (w : World) :
  i_Type i ≠ InteractionApplicationCommand →
  Forall (commands_only i) (concat (Manager.Bindings m).*2) →
  Manager.HandleCommand m i w
  = (Ret tt, slog Warn "Command binding not found" w).
Proof.
  intros Hty Hall. unfold Manager.HandleCommand. run_steps.
  rewrite handleGroups_concat, handleGroup_none; [done|].
  eapply Forall_impl; [exact Hall|]. intros [b|o] Hlb; [|exact Hlb].
  cbn [Manager.LuaBinding_CanHandleInteraction].
  unfold Bindings.CanHandleInteraction. by apply bool_decide_eq_false_2.
Qed.

(** X18. [HandleCommand] returns at the first binding that claims the
    interaction and handles it without an error: the state is the one that
    this binding leaves, and the bindings after it are not asked. *)
Theorem HandleCommand_stops_at_success (m : Manager.LuaManager)
    (i : InteractionCreate) (w : World)
    (pre post : list Manager.LuaBinding) (lb : Manager.LuaBinding) :
  concat (Manager.Bindings m).*2 = pre ++ lb :: post →
  Forall (λ lb, Manager.LuaBinding_CanHandleInteraction lb i = false) pre →
  Manager.LuaBinding_CanHandleInteraction lb i = true →
  (Manager.LuaBinding_HandleInteraction lb i
     (slog Debug "Binding matched for interaction" w)).1 = Ret None →
  Manager.HandleCommand m i w
  = (Ret tt,
     (Manager.LuaBinding_HandleInteraction lb i
        (slog Debug "Binding matched for interaction" w)).2).
Proof.
  intros Hbindings Hpre Hclaims Hnil.
  unfold Manager.HandleCommand. run_steps.
  rewrite handleGroups_concat, Hbindings, handleGroup_app. run_steps.
  rewrite (handleGroup_none _ _ _ Hpre). run_steps.
  cbn [Manager.handleGroup]. rewrite Hclaims. run_steps.
  destruct (Manager.LuaBinding_HandleInteraction lb i _) as [r w1].
  cbn [fst snd] in *. subst r. by run_steps.
Qed.
End Dispatcher.

Lemma HandleCommand_other_interaction_witness :
  Manager.HandleCommand (Sample.manager Sample.fresh.1) Sample.button_press
    Sample.w0
  = (Ret tt, mkWorld ∅ [EvLog Warn "Command binding not found"]).
Proof.
  apply (HandleCommand_other_interaction (Sample.manager Sample.fresh.1)
           Sample.button_press Sample.w0).
  - discriminate.
  - repeat constructor.
Defined.

Lemma HandleCommand_stops_at_success_witness :
  let s := (Bindings.Register [LTableV (Sample.ping_command (LFunction 9))]
              Sample.fresh).2 in
  let m := Manager.mkManager
             [("default", [Manager.Other Sample.silent]);
              ("commands", [Manager.AppCommand s.1;
                            Manager.Other Sample.loud])] [] in
  (Manager.HandleCommand m Sample.ping s.2).2
  = (Bindings.HandleInteraction s.1 Sample.ping
       (slog Debug "Binding matched for interaction" s.2)).2.
Proof.
  intros s m.
  rewrite (HandleCommand_stops_at_success m Sample.ping s.2
             [Manager.Other Sample.silent] [Manager.Other Sample.loud]
             (Manager.AppCommand s.1) eq_refl ltac:(repeat constructor)
             eq_refl eq_refl).
  reflexivity.
Defined.

(** ** Ready callbacks registered at distinct seconds *)

Lemma register_ready_other_globals regs s g :
  g ∉ ready_name <$> regs.*2 →
  globals (register_ready regs s).2 !! g = globals s.2 !! g.
Proof.
  induction regs as [|r regs IH] using rev_ind; intros Hg; [done|].
  rewrite register_ready_snoc, on_ready_function. cbn [snd SetGlobal globals].
  rewrite !fmap_app in Hg. apply not_elem_of_app in Hg as [Hg Hr].
  rewrite lookup_insert_ne; [by apply IH|].
  intros <-. apply Hr. cbn. apply elem_of_cons. by left.
Qed.

(** X19. Callbacks that scripts register at pairwise distinct seconds are
    all kept: the list of the manager grows by their globals in the order
    of the registrations, every one of these globals holds the callback of
    its registration, and no other global and no binding is touched. *)
Theorem ready_registrations_kept (regs : list (FnId * Z))
    (s : Manager.MState) :
  NoDup regs.*2 →
  let s1 := register_ready regs s in
  Manager.OnReadyCbs s1.1
  = Manager.OnReadyCbs s.1 ++ (ready_name <$> regs.*2)
  ∧ Manager.Bindings s1.1 = Manager.Bindings s.1
  ∧ (∀ f t, (f, t) ∈ regs → GetGlobal (ready_name t) s1.2 = LFunction f)
  ∧ (∀ g, g ∉ ready_name <$> regs.*2 →
          globals s1.2 !! g = globals s.2 !! g).
Proof.
  intros Hnd s1. subst s1. destruct (register_ready_state regs s) as (Hb & Hcbs & _).
  split; [exact Hcbs|]. split; [exact Hb|]. split.
  - intros f t Hin. unfold GetGlobal.
    by rewrite (register_ready_globals regs s f t Hnd Hin).
  - intros g Hg. by apply register_ready_other_globals.
Qed.

Lemma ready_registrations_kept_witness :
  let s1 := register_ready [(13, 100%Z); (2, 101%Z)] Sample.started in
  Manager.OnReadyCbs s1.1 = [ready_name 100; ready_name 101]
  ∧ GetGlobal (ready_name 100) s1.2 = LFunction 13.
Proof.
  assert (NoDup [(13, 100%Z); (2, 101%Z)].*2) as Hnd.
  { apply (bool_decide_unpack _). vm_compute. exact I. }
  destruct (ready_registrations_kept [(13, 100%Z); (2, 101%Z)]
              Sample.started Hnd) as (Hcbs & _ & Hglob & _).
  intros s1. split; [exact Hcbs|].
  apply (Hglob 13 100%Z). apply elem_of_cons. by left.
Defined.

(** ** Flattening the events of the platform *)

Section PlatformEvents.
Context `{Runtime}.

(** C3, as the code has it.  The traversal descends one level, at an
    option of subcommand type: when the first option of the list is a
    subcommand with options, the table is the flattening of the options of
    that subcommand alone, whatever follows it on its own level, and when
    these options are values, the table holds under every key the value of
    the last of them that has this name, and nothing under any other key.
    The traversal does not descend at a subcommand group: a group that is
    the only option is stored like a value, under its own name with the
    text of its value, and none of the options below it is looked at. *)
Theorem buildOptionsTable_one_level (T : option LTable) (o : DataOption)
    (post : list DataOption) :
  (do_Type o = ApplicationCommandOptionSubCommand →
   is_nilSlice (do_Options o) = false →
   Bindings.buildOptionsTable T (slice (o :: post))
   = Bindings.buildOptionsTable T (do_Options o)
   ∧ ∀ inner R k,
       do_Options o = slice inner →
       Forall (λ o, do_Type o ≠ ApplicationCommandOptionSubCommand) inner →
       Bindings.buildOptionsTable None (slice (o :: post)) = Ret R →
       Ret (RawGetString R k)
       = match last (filter (λ o, do_Name o = k) inner) with
         | Some o' => Bindings.optionValue o'
         | None => Ret LNil
         end)
  ∧ (do_Type o = ApplicationCommandOptionSubCommandGroup →
     Bindings.buildOptionsTable T (slice [o])
     = Ret (RawSetString (default (mkTable []) T) (do_Name o)
              (LString (fmt_v (do_Value o))))).
Proof.
  split.
  - intros Hty Hopts.
    assert (∀ T, Bindings.buildOptionsTable T (slice (o :: post))
                 = Bindings.buildOptionsTable T (do_Options o)) as Hdesc.
    { intros T'. rewrite (buildOptionsTable_None (slice (o :: post))),
        (buildOptionsTable_None (do_Options o)).
      by rewrite buildOptionsTable_cons, decide_True, Hopts. }
    split; [apply Hdesc|].
    intros inner R k Hinner Hflat. rewrite Hdesc, Hinner, buildOptionsTable_None.
    intros HR. by rewrite (buildOptionsTable_flat_lookup_from inner Hflat _ _ k HR).
  - intros Hty. rewrite buildOptionsTable_None, buildOptionsTable_cons.
    rewrite decide_False by (rewrite Hty; discriminate).
    unfold Bindings.optionValue. rewrite Hty.
    by repeat (rewrite decide_False by discriminate).
Qed.
End PlatformEvents.

Lemma buildOptionsTable_one_level_witness :
  Bindings.buildOptionsTable None (data_Options (i_Data Sample.foo_bar))
  = Ret (mkTable [(LString "b", LString "y")])
  ∧ Bindings.buildOptionsTable None (data_Options (i_Data Sample.foo_grp_bar))
    = Ret (mkTable [(LString "grp", LString "<nil>")]).
Proof.
  split.
  - change (data_Options (i_Data Sample.foo_bar))
      with (slice [Sample.sub_option "bar" (slice [Sample.str_option "b" "y"])]).
    rewrite (proj1 (proj1 (buildOptionsTable_one_level None
                             (Sample.sub_option "bar"
                                (slice [Sample.str_option "b" "y"])) [])
                      eq_refl eq_refl)).
    reflexivity.
  - change (data_Options (i_Data Sample.foo_grp_bar))
      with (slice [mkDataOption "grp" ApplicationCommandOptionSubCommandGroup
                     GNil
                     (slice [Sample.sub_option "bar"
                               (slice [Sample.str_option "b" "y"])])]).
    rewrite (proj2 (buildOptionsTable_one_level None
                      (mkDataOption "grp"
                         ApplicationCommandOptionSubCommandGroup GNil
                         (slice [Sample.sub_option "bar"
                                   (slice [Sample.str_option "b" "y"])])) [])
               eq_refl).
    reflexivity.
Defined.

(** C3, as the specification words it, fails on the event with two levels
    of nesting, [/foo grp bar b:y]: the table handed to the handler holds
    the group under its own name, an entry of the shallow level, and does
    not hold the option "b" of the deepest level. *)
Lemma buildOptionsTable_stops_at_group :
  ∃ T, Bindings.buildOptionsTable None
         (data_Options (i_Data Sample.foo_grp_bar)) = Ret T
       ∧ RawGetString T "grp" = LString "<nil>"
       ∧ RawGetString T "b" = LNil.
Proof. eexists. split; [reflexivity|]. split; reflexivity. Qed.
